(** * Omnilytics numeric core: kinematics and uncertainty propagation

    A shallow embedding of [src/utils/physics.ts] and
    [src/utils/uncertainty.ts], of the retry utility of the AI service
    client and of the series of the measurements view, and the properties
    of this code.

    Number model.  A JavaScript [number] is modelled as an exact rational
    extended with the three IEEE special values, so that the one unguarded
    division of the code ([ratio = (t - p1[0]) / range]) keeps its meaning
    when [range] is zero.  Binary rounding, overflow and the sign of zero
    are abstracted away.  Numbers that arrive from the decoded AI response
    (sparse points, [duration], [step], [avgConfidence], [maxSpeed]) are
    finite rationals [Q]; a computation leaves [Q] only through a division.

    What is stated.  Because rounding and overflow are abstracted, the
    theorems are of three kinds that do not depend on them: evaluations on
    inputs whose arithmetic is exact in binary floating point (small
    integers, halves, divisions by zero); relations between the values
    that the code itself computes, written with the operations of the
    code; and order properties that rounding to nearest preserves
    (monotonicity, bounds by values that are themselves representable).
    No theorem states that a result is finite, or equates a result with a
    closed form over the rationals. *)

From Stdlib Require Import String.
From Stdlib Require Import QArith Qabs Qround Qminmax Qpower Lqa Lia.
From Stdlib Require Import List Bool Arith ZArith.
From Stdlib Require Import Permutation Sorted.
From Stdlib Require Import DecimalString Decimal.
Import ListNotations.

Local Open Scope Q_scope.

(** ** Boolean tests on rationals *)

Definition Qltb (x y : Q) : bool :=
  match x ?= y with Lt => true | _ => false end.

Definition Qeqb (x y : Q) : bool :=
  match x ?= y with Eq => true | _ => false end.

(** ** JavaScript numbers *)

Module JS.

Inductive number : Type :=
| Fin (q : Q)
| PosInf
| NegInf
| NaN.

Definition isFinite (x : number) : bool :=
  match x with Fin _ => true | _ => false end.

Definition neg (x : number) : number :=
  match x with
  | Fin q => Fin (- q)
  | PosInf => NegInf
  | NegInf => PosInf
  | NaN => NaN
  end.

Definition add (x y : number) : number :=
  match x, y with
  | NaN, _ | _, NaN => NaN
  | Fin a, Fin b => Fin (a + b)
  | PosInf, NegInf | NegInf, PosInf => NaN
  | PosInf, _ | _, PosInf => PosInf
  | NegInf, _ | _, NegInf => NegInf
  end.

Definition sub (x y : number) : number := add x (neg y).

(** The infinity with the sign of [q], and [NaN] at zero. *)
Definition signedInf (q : Q) : number :=
  if Qltb 0 q then PosInf else if Qltb q 0 then NegInf else NaN.

Definition mul (x y : number) : number :=
  match x, y with
  | NaN, _ | _, NaN => NaN
  | Fin a, Fin b => Fin (a * b)
  | PosInf, Fin q | Fin q, PosInf => signedInf q
  | NegInf, Fin q | Fin q, NegInf => signedInf (- q)
  | PosInf, PosInf | NegInf, NegInf => PosInf
  | PosInf, NegInf | NegInf, PosInf => NegInf
  end.

Definition div (x y : number) : number :=
  match x, y with
  | NaN, _ | _, NaN => NaN
  | Fin a, Fin b => if Qeqb b 0 then signedInf a else Fin (a / b)
  | Fin _, (PosInf | NegInf) => Fin 0
  | PosInf, Fin b => if Qltb b 0 then NegInf else PosInf
  | NegInf, Fin b => if Qltb b 0 then PosInf else NegInf
  | (PosInf | NegInf), (PosInf | NegInf) => NaN
  end.

(** [Math.abs] *)
Definition abs (x : number) : number :=
  match x with
  | Fin q => Fin (Qabs q)
  | PosInf | NegInf => PosInf
  | NaN => NaN
  end.

(** [x < y]; every comparison with [NaN] is false. *)
Definition ltb (x y : number) : bool :=
  match x, y with
  | NaN, _ | _, NaN => false
  | Fin a, Fin b => Qltb a b
  | NegInf, (Fin _ | PosInf) => true
  | Fin _, PosInf => true
  | _, _ => false
  end.

(** [x > y] *)
Definition gtb (x y : number) : bool := ltb y x.

(** [x <= y] *)
Definition leb (x y : number) : bool :=
  match x, y with
  | NaN, _ | _, NaN => false
  | Fin a, Fin b => Qle_bool a b
  | NegInf, _ => true
  | _, PosInf => true
  | _, _ => false
  end.

(** [Math.max(x, y)] *)
Definition max (x y : number) : number :=
  match x, y with
  | NaN, _ | _, NaN => NaN
  | _, _ => if ltb x y then y else x
  end.

(** [Math.min(x, y)] *)
Definition min (x y : number) : number :=
  match x, y with
  | NaN, _ | _, NaN => NaN
  | _, _ => if ltb y x then y else x
  end.

(** Equality of numbers as values: rationals are compared by [Qeq]. *)
Definition eqv (x y : number) : Prop :=
  match x, y with
  | Fin a, Fin b => a == b
  | PosInf, PosInf | NegInf, NegInf | NaN, NaN => True
  | _, _ => False
  end.

(** [0 <= x] as a proposition: false of [NaN] and of negative values. *)
Definition nonneg (x : number) : Prop := leb (Fin 0) x = true.

End JS.

Declare Scope js_scope.
Delimit Scope js_scope with js.
Bind Scope js_scope with JS.number.
Infix "+" := JS.add : js_scope.
Infix "-" := JS.sub : js_scope.
Infix "*" := JS.mul : js_scope.
Infix "/" := JS.div : js_scope.
Infix "<?" := JS.ltb (at level 70) : js_scope.
Infix ">?" := JS.gtb (at level 70) : js_scope.
Coercion JS.Fin : Q >-> JS.number.

(** ** How a call ends *)

(** A call returns a value, throws, or is still running when its fuel is
    spent.  The one exception that the kinematics engine could raise is
    the [TypeError] of reading an element of [undefined]. *)
Inductive Outcome (A : Type) : Type :=
| Returns (a : A)
| Throws
| OutOfFuel.

Arguments Returns {A} a.
Arguments Throws {A}.
Arguments OutOfFuel {A}.

Definition bind {A B : Type} (o : Outcome A) (k : A -> Outcome B) : Outcome B :=
  match o with
  | Returns a => k a
  | Throws => Throws
  | OutOfFuel => OutOfFuel
  end.

Notation "x <- o ;; k" := (bind o (fun x => k))
  (at level 61, o at next level, right associativity).

(** ** Kinematics engine: [src/utils/physics.ts] *)

(** A sparse observation [[time, value]]. *)
Definition SparsePoint : Type := (Q * Q)%type.

(** An element [{ time, value }] of a dense series. *)
Module DenseSample.
Record t : Type := mk {
  time : JS.number;
  value : JS.number
}.
End DenseSample.

(** [Number(t.toFixed(1))]: the nearest multiple of one tenth, a tie going
    away from zero; from [1e21] on [toFixed] prints the number itself. *)
Definition toFixed1 (t : Q) : Q :=
  if Qle_bool (10 ^ 21) (Qabs t) then t
  else if Qltb t 0
       then - (inject_Z (Qfloor (10 * (- t) + (1 # 2))) / 10)
       else inject_Z (Qfloor (10 * t + (1 # 2))) / 10.

(** The comparator of the sort, [(a, b) => a[0] - b[0]]. *)
Definition compareTime (a b : SparsePoint) : Q := fst a - fst b.

(** [Array.prototype.sort] is stable: an element goes after the elements
    that the comparator puts strictly before it, and before its equals
    that followed it in the input. *)
Fixpoint insertPoint (a : SparsePoint) (l : list SparsePoint) : list SparsePoint :=
  match l with
  | [] => [a]
  | b :: l' =>
      if Qltb 0 (compareTime a b) then b :: insertPoint a l' else a :: b :: l'
  end.

Fixpoint sortByTime (l : list SparsePoint) : list SparsePoint :=
  match l with
  | [] => []
  | a :: l' => insertPoint a (sortByTime l')
  end.

(** The cursor scan
    [while (currentIdx < sorted.length - 1 && sorted[currentIdx + 1][0] < t) currentIdx++],
    with [n] evaluations of its condition at most.  Reading [[0]] of a
    missing [sorted[currentIdx + 1]] throws. *)
Fixpoint advance (n : nat) (sorted : list SparsePoint) (t : Q) (currentIdx : nat)
    : Outcome nat :=
  match n with
  | O => OutOfFuel
  | S n' =>
      if (currentIdx <? length sorted - 1)%nat then
        match nth_error sorted (currentIdx + 1) with
        | Some p2 =>
            if Qltb (fst p2) t then advance n' sorted t (S currentIdx)
            else Returns currentIdx
        | None => Throws
        end
      else Returns currentIdx
  end.

(** The scan moves the cursor by one each round and never past the last
    index, so it evaluates its condition [length sorted + 1] times at most. *)
Definition seek (sorted : list SparsePoint) (t : Q) (currentIdx : nat) : Outcome nat :=
  advance (S (length sorted)) sorted t currentIdx.

(** The cursor that the scan returns. *)
Definition seekIdx (sorted : list SparsePoint) (t : Q) (currentIdx : nat) : nat :=
  match seek sorted t currentIdx with
  | Returns i => i
  | _ => currentIdx
  end.

(** The linear interpolation of the interior branch, before clamping. *)
Definition lerp (p1 p2 : SparsePoint) (t : Q) : JS.number :=
  let range := fst p2 - fst p1 in
  let ratio := (JS.Fin (t - fst p1) / JS.Fin range)%js in
  (JS.Fin (snd p1) + JS.Fin (snd p2 - snd p1) * ratio)%js.

(** The body of the [for] loop after the scan: the sample pushed at [t]. *)
Definition sampleAt (sorted : list SparsePoint) (t : Q) (currentIdx : nat) : DenseSample.t :=
  let p1 := nth_error sorted currentIdx in
  let p2 := nth_error sorted (currentIdx + 1) in
  match p1, p2 with
  | Some p1, Some p2 =>
      DenseSample.mk (JS.Fin (toFixed1 t)) (JS.max (JS.Fin 0) (lerp p1 p2 t))
  | Some p1, None =>
      DenseSample.mk (JS.Fin (toFixed1 t)) (JS.Fin (snd p1))
  | None, _ =>
      DenseSample.mk (JS.Fin (toFixed1 t)) (JS.Fin 0)
  end.

(** [for (let t = 0; t <= duration; t += step)] with the loop state
    [(t, currentIdx, dense)]; [OutOfFuel] when [fuel] rounds do not reach
    the exit of the loop. *)
Fixpoint interpolateLoop (fuel : nat) (sorted : list SparsePoint) (duration step : Q)
    (t : Q) (currentIdx : nat) (dense : list DenseSample.t) : Outcome (list DenseSample.t) :=
  match fuel with
  | O => OutOfFuel
  | S fuel' =>
      if Qle_bool t duration then
        currentIdx' <- seek sorted t currentIdx ;;
        interpolateLoop fuel' sorted duration step (t + step) currentIdx'
          (dense ++ [sampleAt sorted t currentIdx'])
      else Returns dense
  end.

Definition interpolateSeries (fuel : nat) (sparse : list SparsePoint) (duration step : Q)
    : Outcome (list DenseSample.t) :=
  if (length sparse <? 2)%nat then Returns []
  else
    let sorted := sortByTime sparse in
    interpolateLoop fuel sorted duration step 0 0%nat [].

(** The default argument [step = 0.1]. *)
Definition defaultStep : Q := 1 # 10.

(** [computeAcceleration]: the first sample maps to 0, every later one to
    the backward difference against its predecessor, guarded by [dt > 0]. *)
Fixpoint accelerationAfter (prev : DenseSample.t) (rest : list DenseSample.t)
    : list DenseSample.t :=
  match rest with
  | [] => []
  | point :: rest' =>
      let dt := (DenseSample.time point - DenseSample.time prev)%js in
      let dv := (DenseSample.value point - DenseSample.value prev)%js in
      let accel := if (dt >? JS.Fin 0)%js then (dv / dt)%js else JS.Fin 0 in
      DenseSample.mk (DenseSample.time point) accel :: accelerationAfter point rest'
  end.

Definition computeAcceleration (speedSeries : list DenseSample.t) : list DenseSample.t :=
  match speedSeries with
  | [] => []
  | point :: rest =>
      DenseSample.mk (DenseSample.time point) (JS.Fin 0) :: accelerationAfter point rest
  end.

(** [computeEnergy]: [0.5 * Math.pow(point.value, 2)]. *)
Definition computeEnergy (speedSeries : list DenseSample.t) : list DenseSample.t :=
  List.map (fun point =>
    DenseSample.mk (DenseSample.time point)
      (JS.Fin (1 # 2) * (DenseSample.value point * DenseSample.value point))%js)
    speedSeries.

Inductive MotionState : Type := stationary | moving | erratic.

(** The fields of [TrackedObject] that the two engines read, and the other
    scalar ones; [id] is an integer track number. *)
Module TrackedObject.
Record t : Type := mk {
  id : Z;
  label : string;
  firstSeen : Q;
  lastSeen : Q;
  maxSpeed : Q;
  avgConfidence : Q;
  motionState : MotionState;
  direction : string;
  speedProfile : option (list SparsePoint)
}.
End TrackedObject.

(** An element [{ time, distance, ttc, risk }] of the closing series. *)
Module ClosingSample.
Record t : Type := mk {
  time : JS.number;
  distance : JS.number;
  ttc : JS.number;
  risk : bool
}.
End ClosingSample.

(** One round of the loop of [computeDistanceAndTTC]: from the running
    [distance] and the two speeds to the new distance and the pushed row. *)
Definition closingSpeedOf (v1 v2 : JS.number) : JS.number := JS.abs (v1 - v2)%js.

Definition closeDistance (distance closingSpeed : JS.number) : JS.number :=
  let distance := (distance - closingSpeed * JS.Fin (1 # 10))%js in
  if (distance <? JS.Fin 0)%js then JS.Fin 0 else distance.

Definition ttcOf (distance closingSpeed : JS.number) : JS.number :=
  if (closingSpeed >? JS.Fin 1)%js then (distance / closingSpeed)%js else JS.Fin 10.

Definition riskOf (ttc distance : JS.number) : bool :=
  (ttc <? JS.Fin (5 # 2))%js && (distance <? JS.Fin 20)%js.

(** [for (let i = 0; i < Math.min(dense1.length, dense2.length); i++)],
    walking both series in step with the running [distance]. *)
Fixpoint closingLoop (dense1 dense2 : list DenseSample.t) (distance : JS.number)
    : list ClosingSample.t :=
  match dense1, dense2 with
  | s1 :: dense1', s2 :: dense2' =>
      let v1 := DenseSample.value s1 in
      let v2 := DenseSample.value s2 in
      let closingSpeed := closingSpeedOf v1 v2 in
      let distance := closeDistance distance closingSpeed in
      let ttc := ttcOf distance closingSpeed in
      ClosingSample.mk (DenseSample.time s1) distance ttc (riskOf ttc distance)
        :: closingLoop dense1' dense2' distance
  | _, _ => []
  end.

(** [obj.speedProfile || []] *)
Definition profileOf (obj : TrackedObject.t) : list SparsePoint :=
  match TrackedObject.speedProfile obj with
  | Some profile => profile
  | None => []
  end.

(** The start distance of the simulation, [let distance = 50]. *)
Definition startDistance : JS.number := JS.Fin 50.

(** [computeDistanceAndTTC]; the unused flag [isConverging] is left out.
    Both interpolations run with the default step. *)
Definition computeDistanceAndTTC (fuel : nat) (obj1 obj2 : TrackedObject.t) (duration : Q)
    : Outcome (list ClosingSample.t) :=
  dense1 <- interpolateSeries fuel (profileOf obj1) duration defaultStep ;;
  dense2 <- interpolateSeries fuel (profileOf obj2) duration defaultStep ;;
  Returns (closingLoop dense1 dense2 startDistance).

(** ** Uncertainty propagation engine: [src/utils/uncertainty.ts]

    No division of this file has a divisor that can be zero, so its
    numbers stay in [Q]. *)

Inductive EventType : Type := detection | occlusion | braking | impact | other.
Inductive EventConfidence : Type := high | medium | low.

Definition isOcclusion (ty : EventType) : bool :=
  match ty with occlusion => true | _ => false end.

Module TimelineEvent.
Record t : Type := mk {
  id : string;
  label : string;
  timestamp : Q;
  type : EventType;
  confidence : EventConfidence;
  frame : Q
}.
End TimelineEvent.

Module UncertaintyNode.
Record t : Type := mk {
  objectId : Z;
  label : string;
  posUncertainty : Q;
  velUncertainty : Q;
  accelUncertainty : Q;
  persistenceRisk : Q
}.
End UncertaintyNode.

Module ConfidenceBudgetRow.
Record t : Type := mk {
  stage : string;
  inputConf : Q;
  loss : Q;
  outputConf : Q
}.
End ConfidenceBudgetRow.

Inductive BlindSpotType : Type := SPATIAL | TEMPORAL | ANALYTICAL.
Inductive Severity : Type := LOW | MEDIUM | HIGH.

Module BlindSpot.
Record t : Type := mk {
  type : BlindSpotType;
  description : string;
  severity : Severity
}.
End BlindSpot.

Module UncertaintyAnalysis.
Record t : Type := mk {
  nodes : list UncertaintyNode.t;
  budget : list ConfidenceBudgetRow.t;
  blindSpots : list BlindSpot.t
}.
End UncertaintyAnalysis.

(** The callback of [objects.map] that builds one node. *)
Definition uncertaintyNode (obj : TrackedObject.t) : UncertaintyNode.t :=
  let baseUncertainty := 1 - TrackedObject.avgConfidence obj in
  let velUncertainty :=
    Qmin 1 (baseUncertainty * (12 # 10)
            + (if Qltb 80 (TrackedObject.maxSpeed obj) then 2 # 10 else 0)) in
  let accelUncertainty := Qmin 1 (velUncertainty * (15 # 10)) in
  let persistenceRisk :=
    Qmin 1 (baseUncertainty
            + (match TrackedObject.motionState obj with erratic => 3 # 10 | _ => 0 end)) in
  UncertaintyNode.mk (TrackedObject.id obj) (TrackedObject.label obj)
    baseUncertainty velUncertainty accelUncertainty persistenceRisk.

(** [objects.reduce((acc, o) => acc + o.avgConfidence, 0) / objects.length],
    and 0 for no object. *)
Definition avgDetectionConf (objects : list TrackedObject.t) : Q :=
  if (0 <? length objects)%nat then
    fold_left (fun acc o => acc + TrackedObject.avgConfidence o) objects 0
    / inject_Z (Z.of_nat (length objects))
  else 0.

(** [events.filter(e => e.type === 'occlusion')] *)
Definition occlusionEvents (events : list TimelineEvent.t) : list TimelineEvent.t :=
  filter (fun e => isOcclusion (TimelineEvent.type e)) events.

(** [objects.filter(o => o.avgConfidence < 0.6)] *)
Definition lowConfObjects (objects : list TrackedObject.t) : list TrackedObject.t :=
  filter (fun o => Qltb (TrackedObject.avgConfidence o) (6 # 10)) objects.

(** The decimal print of an integer, as a template literal gives it for a
    magnitude below [1e21], and of a length. *)
Definition showZ (z : Z) : string := NilZero.string_of_int (Z.to_int z).
Definition showNat (n : nat) : string := NilZero.string_of_uint (Nat.to_uint n).

Definition confidenceBudget (objects : list TrackedObject.t) (events : list TimelineEvent.t)
    : list ConfidenceBudgetRow.t :=
  let detectionInput := 1 in
  let detectionLoss := (1 - avgDetectionConf objects) * (15 # 100) in
  let detectionOutput := detectionInput - detectionLoss in
  let trackingLoss :=
    (5 # 100) + inject_Z (Z.of_nat (length (occlusionEvents events))) * (2 # 100) in
  let trackingOutput := detectionOutput - trackingLoss in
  let motionLoss := trackingLoss * (15 # 10) in
  let motionOutput := trackingOutput - motionLoss in
  let dynamicsLoss := 5 # 100 in
  let dynamicsOutput := motionOutput - dynamicsLoss in
  [ ConfidenceBudgetRow.mk "Raw Detection" detectionInput detectionLoss detectionOutput;
    ConfidenceBudgetRow.mk "Multi-Object Tracking" detectionOutput trackingLoss trackingOutput;
    ConfidenceBudgetRow.mk "Motion Estimation" trackingOutput motionLoss motionOutput;
    ConfidenceBudgetRow.mk "Dynamics Modeling" motionOutput dynamicsLoss dynamicsOutput ].

(** The three [push]es, threaded through the list [blindSpots]. *)
Definition detectBlindSpots (objects : list TrackedObject.t) (events : list TimelineEvent.t)
    : list BlindSpot.t :=
  let blindSpots := [] in
  let lowConf := lowConfObjects objects in
  let blindSpots :=
    if (0 <? length lowConf)%nat then
      blindSpots ++
      [ BlindSpot.mk ANALYTICAL
          ("High uncertainty for IDs: "
           ++ String.concat ", " (List.map (fun o => showZ (TrackedObject.id o)) lowConf)
           ++ " due to low detection score.")
          HIGH ]
    else blindSpots in
  let occlusions := occlusionEvents events in
  let blindSpots :=
    if (0 <? length occlusions)%nat then
      blindSpots ++
      [ BlindSpot.mk TEMPORAL
          (showNat (length occlusions)
           ++ " occlusion intervals detected where tracking relies on prediction.")
          MEDIUM ]
    else blindSpots in
  blindSpots ++
  [ BlindSpot.mk SPATIAL
      "Perimeter distortion: Lens geometry reduces accuracy at frame edges > 85%."
      LOW ].

Definition computeUncertaintyMetrics (objects : list TrackedObject.t)
    (events : list TimelineEvent.t) : UncertaintyAnalysis.t :=
  UncertaintyAnalysis.mk
    (List.map uncertaintyNode objects)
    (confidenceBudget objects events)
    (detectBlindSpots objects events).

(** ** Properties stated by the specification, as predicates of the code *)

Definition inUnit (q : Q) : Prop := 0 <= q /\ q <= 1.

(** All four scalars of a node lie in [[0, 1]]. *)
Definition nodeInUnit (n : UncertaintyNode.t) : Prop :=
  inUnit (UncertaintyNode.posUncertainty n) /\
  inUnit (UncertaintyNode.velUncertainty n) /\
  inUnit (UncertaintyNode.accelUncertainty n) /\
  inUnit (UncertaintyNode.persistenceRisk n).


(** The confidences met along the chain, in order: each row's input, then
    its output. *)
Definition chainOf (rows : list ConfidenceBudgetRow.t) : list Q :=
  flat_map (fun r => [ConfidenceBudgetRow.inputConf r; ConfidenceBudgetRow.outputConf r]) rows.

Fixpoint nonIncreasing (l : list Q) : Prop :=
  match l with
  | a :: (b :: _) as l' => b <= a /\ nonIncreasing l'
  | _ => True
  end.

Definition confidencesNonNegative (rows : list ConfidenceBudgetRow.t) : Prop :=
  Forall (fun c => 0 <= c) (chainOf rows).

(** Rank of a finding in the order of emission. *)
Definition emissionRank (ty : BlindSpotType) : nat :=
  match ty with ANALYTICAL => 0 | TEMPORAL => 1 | SPATIAL => 2 end.

Definition emittedInOrder (spots : list BlindSpot.t) : Prop :=
  StronglySorted (fun a b => (emissionRank a < emissionRank b)%nat)
    (List.map BlindSpot.type spots).

(** A list of [n] occlusion events. *)
Definition sampleOcclusion : TimelineEvent.t :=
  TimelineEvent.mk "e1" "occluded" 0 occlusion medium 0.

Definition plainObject (conf speed : Q) (state : MotionState) : TrackedObject.t :=
  TrackedObject.mk 1 "car" 0 0 speed conf state "north" None.

Definition profiledObject (profile : list SparsePoint) : TrackedObject.t :=
  TrackedObject.mk 1 "car" 0 0 0 1 moving "north" (Some profile).

(** The loop state of [interpolateSeries] at round [i]: the clock [t] ... *)
Fixpoint clock (step : Q) (i : nat) : Q :=
  match i with
  | O => 0
  | S i' => clock step i' + step
  end.

(** ... and the cursor [currentIdx], before and after the scan of the round. *)
Fixpoint cursorBefore (sorted : list SparsePoint) (step : Q) (i : nat) : nat :=
  match i with
  | O => 0%nat
  | S i' => seekIdx sorted (clock step i') (cursorBefore sorted step i')
  end.

Definition cursorAt (sorted : list SparsePoint) (step : Q) (i : nat) : nat :=
  seekIdx sorted (clock step i) (cursorBefore sorted step i).

(** The running [distance] of [computeDistanceAndTTC] on entry to round [i]. *)
Definition distanceBefore (results : list ClosingSample.t) (i : nat) : JS.number :=
  match i with
  | O => startDistance
  | S j =>
      match nth_error results j with
      | Some r => ClosingSample.distance r
      | None => startDistance
      end
  end.

(** No two points of the list share a timestamp. *)
Definition distinctTimes (l : list SparsePoint) : Prop :=
  ForallOrdPairs (fun a b => ~ fst a == fst b) l.

(** What the specification says of row [r] of the closing series, built
    from the samples [s1], [s2] with the distance [before] on entry. *)
Definition closingRowSpec (before : JS.number) (s1 s2 : DenseSample.t)
    (r : ClosingSample.t) : Prop :=
  let closingSpeed := JS.abs (DenseSample.value s1 - DenseSample.value s2)%js in
  let moved := (before - closingSpeed * JS.Fin (1 # 10))%js in
  ClosingSample.time r = DenseSample.time s1
  /\ ClosingSample.distance r = (if (moved <? JS.Fin 0)%js then JS.Fin 0 else moved)
  /\ (ClosingSample.distance r <? JS.Fin 0)%js = false
  /\ ClosingSample.ttc r =
       (if (closingSpeed >? JS.Fin 1)%js
        then (ClosingSample.distance r / closingSpeed)%js
        else JS.Fin 10)
  /\ (ClosingSample.risk r = true <->
       (ClosingSample.ttc r <? JS.Fin (5 # 2))%js = true
       /\ (ClosingSample.distance r <? JS.Fin 20)%js = true).

(** A distance within [[0, 50]]. *)
Definition distanceInRange (r : ClosingSample.t) : Prop :=
  JS.leb (JS.Fin 0) (ClosingSample.distance r) = true
  /\ JS.leb (ClosingSample.distance r) (JS.Fin 50) = true.

(** A number between the rationals [lo] and [hi]. *)
Definition within (lo hi : Q) (x : JS.number) : Prop :=
  JS.leb (JS.Fin lo) x = true /\ JS.leb x (JS.Fin hi) = true.

(** No distance is above the one before it, from [before] on; a [NaN]
    compares with nothing, so that once the distance is [NaN] every later
    one is [NaN]. *)
Fixpoint neverGrows (before : JS.number) (results : list ClosingSample.t) : Prop :=
  match results with
  | [] => True
  | r :: rest =>
      (ClosingSample.distance r = JS.NaN
       \/ JS.leb (ClosingSample.distance r) before = true)
      /\ neverGrows (ClosingSample.distance r) rest
  end.

(** ** Retry utility of the AI service client: [withRetry]

    The operation and [Math.random] are the environment of the call: the
    [k]-th invocation of [operation] ends as [attempts k] says, and the
    [k]-th call of [Math.random] returns [randoms k].  The run records the
    arguments of [sleep] in order and the number of invocations; the
    console output is left out.  [retries] is a count, as at every call
    site, which passes none and gets the default 8. *)

(** A value read from an error by [=== 429] or [=== 'RESOURCE_EXHAUSTED']. *)
Inductive JsValue : Type :=
| VNumber (z : Z)
| VString (s : string)
| VOther.

(** [error.error], with its [code] and [status]. *)
Module InnerError.
Record t : Type := mk {
  code : option JsValue;
  status : option JsValue
}.
End InnerError.

(** [error.message]: absent ([undefined] or [null]), a string, an array,
    or a value of another kind (a number, a boolean, a plain object),
    which has no method [includes].  An object that brings a method
    [includes] of its own is left out. *)
Inductive Message : Type :=
| NoMessage
| Text (s : string)
| Items (l : list JsValue)
| NotSearchable.

(** The fields of a caught error that the rate-limit test reads; a field
    that is absent is [None].  A thrown primitive has none of them. *)
Module ApiError.
Record t : Type := mk {
  status : option JsValue;
  code : option JsValue;
  message : Message;
  error : option InnerError.t
}.
End ApiError.

(** [v === 429] *)
Definition is429 (v : option JsValue) : bool :=
  match v with
  | Some (VNumber 429) => true
  | _ => false
  end.

(** [v === 'RESOURCE_EXHAUSTED'] *)
Definition isExhausted (v : option JsValue) : bool :=
  match v with
  | Some (VString s) => String.eqb s "RESOURCE_EXHAUSTED"
  | _ => false
  end.

(** [hay.includes(needle)] on strings. *)
Fixpoint includes (needle hay : string) : bool :=
  String.prefix needle hay
  || match hay with
     | EmptyString => false
     | String _ hay' => includes needle hay'
     end.

(** [m?.includes(needle)] as a condition: [undefined] counts as false, an
    array is searched for the string itself, and calling the missing
    method of any other value raises a [TypeError], which is [None]. *)
Definition messageIncludes (m : Message) (needle : string) : option bool :=
  match m with
  | NoMessage => Some false
  | Text hay => Some (includes needle hay)
  | Items l =>
      Some (existsb (fun v => match v with
                              | VString s => String.eqb s needle
                              | _ => false
                              end) l)
  | NotSearchable => None
  end.

(** The test [isRateLimit] on the caught [error], which may be [null] or
    [undefined]; the operands of [||] are evaluated from left to right,
    until the first that holds.  [None] is the [TypeError] of the test. *)
Definition isRateLimit (error : option ApiError.t) : option bool :=
  match error with
  | None => Some false
  | Some e =>
      if is429 (ApiError.status e) then Some true
      else if is429 (ApiError.code e) then Some true
      else
        match messageIncludes (ApiError.message e) "429" with
        | None => None
        | Some true => Some true
        | Some false =>
            match messageIncludes (ApiError.message e) "quota" with
            | None => None
            | Some true => Some true
            | Some false =>
                match messageIncludes (ApiError.message e) "RESOURCE_EXHAUSTED" with
                | None => None
                | Some true => Some true
                | Some false =>
                    Some (is429 (match ApiError.error e with
                                 | Some i => InnerError.code i
                                 | None => None
                                 end)
                          || isExhausted (match ApiError.error e with
                                          | Some i => InnerError.status i
                                          | None => None
                                          end))
                end
            end
        end
  end.

(** How a promise of the operation settles. *)
Inductive Settled (T : Type) : Type :=
| Fulfilled (v : T)
| Rejected (error : option ApiError.t).

Arguments Fulfilled {T} v.
Arguments Rejected {T} error.

(** How the promise of [withRetry] settles: as an invocation of the
    operation did, or rejected with the [TypeError] of the rate-limit
    test. *)
Inductive RunEnd (T : Type) : Type :=
| SettledAs (a : Settled T)
| TestThrew.

Arguments SettledAs {T} a.
Arguments TestThrew {T}.

(** A finished call of [withRetry]: how its promise settled, the waits it
    slept, and how often it invoked the operation. *)
Module Run.
Record t (T : Type) : Type := mk {
  settled : RunEnd T;
  sleeps : list Q;
  calls : nat
}.
Arguments mk {T} _ _ _.
Arguments settled {T} _.
Arguments sleeps {T} _.
Arguments calls {T} _.
End Run.

(** [withRetry(operation, retries, backoff)] entered with [k] invocations
    and the waits [sleeps] behind it. *)
Fixpoint retryFrom {T : Type} (attempts : nat -> Settled T) (randoms : nat -> Q)
    (retries : nat) (backoff : Q) (k : nat) (sleeps : list Q) : Run.t T :=
  match attempts k with
  | Fulfilled v => Run.mk (SettledAs (Fulfilled v)) sleeps (S k)
  | Rejected error =>
      match isRateLimit error with
      | None => Run.mk TestThrew sleeps (S k)
      | Some limited =>
          match limited, retries with
          | true, S retries' =>
              let jitter := randoms k * 2000 in
              let waitTime := backoff + jitter in
              retryFrom attempts randoms retries' (backoff * (15 # 10)) (S k)
                (sleeps ++ [waitTime])
          | _, _ => Run.mk (SettledAs (Rejected error)) sleeps (S k)
          end
      end
  end.

Definition withRetry {T : Type} (attempts : nat -> Settled T) (randoms : nat -> Q)
    (retries : nat) (backoff : Q) : Run.t T :=
  retryFrom attempts randoms retries backoff 0 [].

(** The default arguments [retries = 8, backoff = 5000]. *)
Definition defaultRetries : nat := 8.
Definition defaultBackoff : Q := 5000.

(** The [backoff] argument after [j] retries. *)
Fixpoint backoffAt (backoff : Q) (j : nat) : Q :=
  match j with
  | O => backoff
  | S j' => backoffAt (backoff * (15 # 10)) j'
  end.

(** A rejection that the rate-limit test accepts. *)
Definition rateLimited {T : Type} (a : Settled T) : Prop :=
  exists error, a = Rejected error /\ isRateLimit error = Some true.

(** A rejection on which the rate-limit test raises its [TypeError]. *)
Definition breaksTest {T : Type} (a : Settled T) : Prop :=
  exists error, a = Rejected error /\ isRateLimit error = None.

Definition sumQ (l : list Q) : Q := fold_right Qplus 0 l.

(** An operation that is rejected twice for quota and then fulfils, one
    that is rejected with a numeric [message], and a [Math.random] that
    always returns one half. *)
Definition quotaError : ApiError.t :=
  ApiError.mk None None (Text "Daily quota exceeded") None.

Definition flakyOperation (k : nat) : Settled nat :=
  if (k <? 2)%nat then Rejected (Some quotaError) else Fulfilled 7%nat.

Definition oddError : ApiError.t :=
  ApiError.mk (Some (VNumber 500)) None NotSearchable None.

Definition oddOperation (k : nat) : Settled nat := Rejected (Some oddError).

Definition halfJitter (k : nat) : Q := 1 # 2.

(** ** The series of the measurements view: the [useMemo] callback of
    [MeasurementsView] *)

(** A row of a chart: its [time] and one property [obj_<id>] per object,
    in the order in which the properties were first set. *)
Module GraphPoint.
Record t : Type := mk {
  time : JS.number;
  values : list (Z * JS.number)
}.
End GraphPoint.

(** [point[key] = v]: an existing property keeps its place. *)
Fixpoint setProp (key : Z) (v : JS.number) (props : list (Z * JS.number))
    : list (Z * JS.number) :=
  match props with
  | [] => [(key, v)]
  | (k, w) :: props' =>
      if Z.eqb k key then (k, v) :: props' else (k, w) :: setProp key v props'
  end.

(** [point[key]] *)
Fixpoint getProp (key : Z) (props : list (Z * JS.number)) : option JS.number :=
  match props with
  | [] => None
  | (k, w) :: props' => if Z.eqb k key then Some w else getProp key props'
  end.

(** Truthiness of a number: [0] and [NaN] are falsy. *)
Definition truthy (v : JS.number) : bool :=
  match v with
  | JS.Fin q => negb (Qeqb q 0)
  | JS.NaN => false
  | _ => true
  end.

(** [dense.find(p => Math.abs(p.time - t) < 0.1)?.value || 0] *)
Definition sampleNear (dense : list DenseSample.t) (t : Q) : JS.number :=
  match find (fun p => (JS.abs (DenseSample.time p - JS.Fin t) <? JS.Fin (1 # 10))%js)
          dense with
  | Some p => if truthy (DenseSample.value p) then DenseSample.value p else JS.Fin 0
  | None => JS.Fin 0
  end.

(** [objects.map(obj => ({ ...obj, dense: interpolateSeries(...) }))],
    keeping the [id] and the dense series of each object. *)
Fixpoint interpolateEach (fuel : nat) (objects : list TrackedObject.t) (duration : Q)
    : Outcome (list (Z * list DenseSample.t)) :=
  match objects with
  | [] => Returns []
  | obj :: rest =>
      dense <- interpolateSeries fuel (profileOf obj) duration defaultStep ;;
      more <- interpolateEach fuel rest duration ;;
      Returns ((TrackedObject.id obj, dense) :: more)
  end.

(** The body of [denseObjects.forEach] at clock [t], on the two rows. *)
Definition plotObject (t : Q) (rows : GraphPoint.t * GraphPoint.t)
    (obj : Z * list DenseSample.t) : GraphPoint.t * GraphPoint.t :=
  let (point, accelPoint) := rows in
  let val := sampleNear (snd obj) t in
  let point := GraphPoint.mk (GraphPoint.time point)
                 (setProp (fst obj) val (GraphPoint.values point)) in
  let prev := sampleNear (snd obj) (t - (1 # 2)) in
  let a := ((val - prev) / JS.Fin (1 # 2))%js in
  let accelPoint := GraphPoint.mk (GraphPoint.time accelPoint)
                      (setProp (fst obj) a (GraphPoint.values accelPoint)) in
  (point, accelPoint).

(** The two rows pushed at clock [t]. *)
Definition plotRows (denseObjects : list (Z * list DenseSample.t)) (t : Q)
    : GraphPoint.t * GraphPoint.t :=
  fold_left (plotObject t) denseObjects
    (GraphPoint.mk (JS.Fin (toFixed1 t)) [], GraphPoint.mk (JS.Fin (toFixed1 t)) []).

(** [for (let t = 0; t <= duration; t += 0.5)] *)
Fixpoint graphLoop (fuel : nat) (denseObjects : list (Z * list DenseSample.t))
    (duration t : Q) (graphData accelData : list GraphPoint.t)
    : Outcome (list GraphPoint.t * list GraphPoint.t) :=
  match fuel with
  | O => OutOfFuel
  | S fuel' =>
      if Qle_bool t duration then
        let (point, accelPoint) := plotRows denseObjects t in
        graphLoop fuel' denseObjects duration (t + (1 # 2))
          (graphData ++ [point]) (accelData ++ [accelPoint])
      else Returns (graphData, accelData)
  end.

Module MeasurementSeries.
Record t : Type := mk {
  speedSeries : list GraphPoint.t;
  accelSeries : list GraphPoint.t;
  distanceData : list ClosingSample.t
}.
End MeasurementSeries.

(** The callback of [useMemo] in [MeasurementsView]. *)
Definition measurementSeries (fuel : nat) (objects : list TrackedObject.t) (duration : Q)
    : Outcome MeasurementSeries.t :=
  match objects with
  | [] => Returns (MeasurementSeries.mk [] [] [])
  | first :: others =>
      denseObjects <- interpolateEach fuel objects duration ;;
      series <- graphLoop fuel denseObjects duration 0 [] [] ;;
      distData <- match others with
                  | second :: _ => computeDistanceAndTTC fuel first second duration
                  | [] => Returns []
                  end ;;
      Returns (MeasurementSeries.mk (fst series) (snd series) distData)
  end.

(** ** Lemmas on the uncertainty engine *)

Lemma Qltb_lt (x y : Q) : Qltb x y = true <-> x < y.
Proof.
  unfold Qltb. rewrite Qlt_alt. destruct (x ?= y); split; congruence.
Qed.

Lemma Qltb_ge (x y : Q) : Qltb x y = false <-> y <= x.
Proof.
  unfold Qltb. rewrite Qle_alt, <- (Qcompare_antisym y x).
  destruct (y ?= x); simpl; split; congruence.
Qed.

Lemma Qeqb_eq (x y : Q) : Qeqb x y = true <-> x == y.
Proof.
  unfold Qeqb. rewrite Qeq_alt. destruct (x ?= y); split; congruence.
Qed.

Lemma Qeqb_neq (x y : Q) : Qeqb x y = false <-> ~ x == y.
Proof.
  rewrite <- Qeqb_eq. destruct (Qeqb x y); split; congruence.
Qed.

Lemma Qmin_cases (x y : Q) :
  (x <= y /\ Qmin x y == x) \/ (y <= x /\ Qmin x y == y).
Proof.
  destruct (Q.min_spec x y) as [[H E] | [H E]]; [left | right]; split; auto.
  apply Qlt_le_weak; exact H.
Qed.

Ltac split_min :=
  repeat match goal with
  | |- context [Qmin ?a ?b] =>
      let H := fresh "Hle" in let E := fresh "Hmin" in
      destruct (Qmin_cases a b) as [[H E] | [H E]];
      generalize dependent (Qmin a b); intros
  end.

Lemma uncertaintyNode_inUnit (obj : TrackedObject.t) :
  inUnit (TrackedObject.avgConfidence obj) -> nodeInUnit (uncertaintyNode obj).
Proof.
  intros [H0 H1]. unfold nodeInUnit, inUnit, uncertaintyNode; simpl.
  set (c := TrackedObject.avgConfidence obj) in *.
  destruct (Qltb 80 (TrackedObject.maxSpeed obj));
    destruct (TrackedObject.motionState obj);
    split_min; repeat split; lra.
Qed.


Lemma sum_conf_bounds (objects : list TrackedObject.t) :
  Forall (fun o => inUnit (TrackedObject.avgConfidence o)) objects ->
  forall acc,
    acc <= fold_left (fun a o => a + TrackedObject.avgConfidence o) objects acc /\
    fold_left (fun a o => a + TrackedObject.avgConfidence o) objects acc
      <= acc + inject_Z (Z.of_nat (length objects)).
Proof.
  induction 1 as [| o objects [Ho0 Ho1] _ IH]; intros acc.
  - cbn [fold_left length]. change (inject_Z (Z.of_nat 0)) with 0. split; lra.
  - cbn [fold_left length]. destruct (IH (acc + TrackedObject.avgConfidence o)) as [L U].
    rewrite Nat2Z.inj_succ, <- Z.add_1_r, inject_Z_plus. change (inject_Z 1) with 1.
    split; lra.
Qed.

Lemma avgDetectionConf_inUnit (objects : list TrackedObject.t) :
  Forall (fun o => inUnit (TrackedObject.avgConfidence o)) objects ->
  inUnit (avgDetectionConf objects).
Proof.
  intros H. unfold avgDetectionConf, inUnit.
  destruct objects as [| o objects]; [simpl; split; lra |].
  change (0 <? length (o :: objects))%nat with true. cbv iota.
  destruct (sum_conf_bounds (o :: objects) H 0) as [L U].
  set (s := fold_left _ _ _) in *. set (n := inject_Z _) in *.
  assert (Hn : 0 < n).
  { unfold n. change 0 with (inject_Z 0). rewrite <- Zlt_Qlt. simpl length. lia. }
  split.
  - apply Qle_shift_div_l; [exact Hn | lra].
  - apply Qle_shift_div_r; [exact Hn | lra].
Qed.

Lemma confidenceBudget_nonIncreasing objects events :
  inUnit (avgDetectionConf objects) ->
  nonIncreasing (chainOf (confidenceBudget objects events)).
Proof.
  intros [A0 A1]. unfold confidenceBudget, chainOf; simpl.
  set (a := avgDetectionConf objects) in *.
  assert (Hn : 0 <= inject_Z (Z.of_nat (length (occlusionEvents events)))).
  { change 0 with (inject_Z 0). rewrite <- Zle_Qle. lia. }
  set (n := inject_Z _) in *.
  repeat split; lra.
Qed.

Lemma confidenceBudget_nonNegative objects events :
  inUnit (avgDetectionConf objects) ->
  (length (occlusionEvents events) <= 13)%nat ->
  confidencesNonNegative (confidenceBudget objects events).
Proof.
  intros [A0 A1] Hocc. unfold confidencesNonNegative, confidenceBudget, chainOf; simpl.
  set (a := avgDetectionConf objects) in *.
  assert (Hn : 0 <= inject_Z (Z.of_nat (length (occlusionEvents events))) <= 13).
  { change 0 with (inject_Z 0). change 13 with (inject_Z 13).
    rewrite <- !Zle_Qle. lia. }
  set (n := inject_Z _) in *.
  repeat constructor; lra.
Qed.

Lemma detectBlindSpots_shape objects events :
  exists front,
    detectBlindSpots objects events =
      front ++ [BlindSpot.mk SPATIAL
        "Perimeter distortion: Lens geometry reduces accuracy at frame edges > 85%." LOW]
    /\ (List.map BlindSpot.type front = []
        \/ List.map BlindSpot.type front = [ANALYTICAL]
        \/ List.map BlindSpot.type front = [TEMPORAL]
        \/ List.map BlindSpot.type front = [ANALYTICAL; TEMPORAL]).
Proof.
  unfold detectBlindSpots.
  destruct (0 <? length (lowConfObjects objects))%nat;
    destruct (0 <? length (occlusionEvents events))%nat;
    eexists; (split; [reflexivity |]); simpl; auto.
Qed.

(** ** The uncertainty engine: claims *)

(** C2, as stated, fails: nothing clamps from below, and [posUncertainty]
    is not clamped at all.  A detection confidence of 2 gives the position
    uncertainty [-1]. *)
Lemma nodes_unit_interval_counterexample :
  ~ Forall nodeInUnit
      (UncertaintyAnalysis.nodes (computeUncertaintyMetrics [plainObject 2 0 moving] [])).
Proof.
  intros H. inversion H as [| n ns [[Hpos _] _] _]; subst.
  revert Hpos. simpl. unfold Qle; simpl. lia.
Qed.

(** C2 (amended): when every object's [avgConfidence] lies in [[0, 1]], all
    four fields [posUncertainty], [velUncertainty], [accelUncertainty] and
    [persistenceRisk] of every produced node lie in [[0, 1]]. *)
Theorem nodes_unit_interval (objects : list TrackedObject.t) (events : list TimelineEvent.t) :
  Forall (fun o => inUnit (TrackedObject.avgConfidence o)) objects ->
  Forall nodeInUnit (UncertaintyAnalysis.nodes (computeUncertaintyMetrics objects events)).
Proof.
  intros H. simpl. rewrite Forall_map.
  eapply Forall_impl; [| exact H]. intros o Ho. apply uncertaintyNode_inUnit, Ho.
Qed.

Lemma nodes_unit_interval_witness :
  Forall (fun o => inUnit (TrackedObject.avgConfidence o))
    [plainObject (9 # 10) 40 moving; plainObject (1 # 2) 90 erratic]
  /\ Forall nodeInUnit
       (UncertaintyAnalysis.nodes
          (computeUncertaintyMetrics
             [plainObject (9 # 10) 40 moving; plainObject (1 # 2) 90 erratic]
             [sampleOcclusion])).
Proof.
  assert (H : Forall (fun o => inUnit (TrackedObject.avgConfidence o))
                [plainObject (9 # 10) 40 moving; plainObject (1 # 2) 90 erratic]).
  { repeat constructor; simpl; unfold Qle; simpl; lia. }
  split; [exact H | apply (nodes_unit_interval _ [sampleOcclusion] H)].
Defined.




(** C3, as stated, fails: the chain is not clamped.  With no object and
    fourteen occlusion events the last output confidence is [-0.025]. *)
Lemma budget_monotone_nonneg_counterexample :
  ~ (nonIncreasing
       (chainOf (UncertaintyAnalysis.budget
                   (computeUncertaintyMetrics [] (repeat sampleOcclusion 14))))
     /\ confidencesNonNegative
          (UncertaintyAnalysis.budget
             (computeUncertaintyMetrics [] (repeat sampleOcclusion 14)))).
Proof.
  intros [_ H]. unfold confidencesNonNegative in H.
  rewrite Forall_forall in H.
  specialize (H (ConfidenceBudgetRow.outputConf
                   (nth 3 (confidenceBudget [] (repeat sampleOcclusion 14))
                        (ConfidenceBudgetRow.mk "" 0 0 0)))).
  revert H. vm_compute. intros H. apply H; [| reflexivity].
  do 7 right. left. reflexivity.
Qed.

(** C3 (amended): when every object's [avgConfidence] lies in [[0, 1]], the
    confidences of the four rows never increase along the chain (each
    row's [outputConf <= inputConf], and from a row to the next); they are
    not clamped, and none is below 0 when there are at most thirteen
    occlusion events. *)
Theorem budget_monotone (objects : list TrackedObject.t) (events : list TimelineEvent.t) :
  Forall (fun o => inUnit (TrackedObject.avgConfidence o)) objects ->
  nonIncreasing
    (chainOf (UncertaintyAnalysis.budget (computeUncertaintyMetrics objects events)))
  /\ ((length (occlusionEvents events) <= 13)%nat ->
      confidencesNonNegative
        (UncertaintyAnalysis.budget (computeUncertaintyMetrics objects events))).
Proof.
  intros H. pose proof (avgDetectionConf_inUnit objects H) as Ha. split.
  - apply confidenceBudget_nonIncreasing, Ha.
  - intros Hocc. apply confidenceBudget_nonNegative; assumption.
Qed.

Lemma budget_monotone_witness :
  Forall (fun o => inUnit (TrackedObject.avgConfidence o))
    [plainObject (9 # 10) 40 moving]
  /\ nonIncreasing
       (chainOf (UncertaintyAnalysis.budget
          (computeUncertaintyMetrics [plainObject (9 # 10) 40 moving]
             (repeat sampleOcclusion 3))))
  /\ confidencesNonNegative
       (UncertaintyAnalysis.budget
          (computeUncertaintyMetrics [plainObject (9 # 10) 40 moving]
             (repeat sampleOcclusion 3))).
Proof.
  assert (H : Forall (fun o => inUnit (TrackedObject.avgConfidence o))
                [plainObject (9 # 10) 40 moving]).
  { repeat constructor; simpl; unfold Qle; simpl; lia. }
  destruct (budget_monotone _ (repeat sampleOcclusion 3) H) as [Hmono Hpos].
  split; [exact H | split; [exact Hmono | apply Hpos; simpl; lia]].
Defined.

(** C4: the budget has exactly four rows, in the stage order Raw Detection,
    Multi-Object Tracking, Motion Estimation, Dynamics Modeling; each row
    has [outputConf = inputConf - loss], and each row's [outputConf] is the
    next row's [inputConf]. *)
Theorem budget_four_chained_rows
    (objects : list TrackedObject.t) (events : list TimelineEvent.t) :
  exists r1 r2 r3 r4,
    UncertaintyAnalysis.budget (computeUncertaintyMetrics objects events) = [r1; r2; r3; r4]
    /\ List.map ConfidenceBudgetRow.stage [r1; r2; r3; r4]
       = ["Raw Detection"; "Multi-Object Tracking"; "Motion Estimation";
          "Dynamics Modeling"]%string
    /\ Forall (fun r => ConfidenceBudgetRow.outputConf r
                        = ConfidenceBudgetRow.inputConf r - ConfidenceBudgetRow.loss r)
         [r1; r2; r3; r4]
    /\ ConfidenceBudgetRow.outputConf r1 = ConfidenceBudgetRow.inputConf r2
    /\ ConfidenceBudgetRow.outputConf r2 = ConfidenceBudgetRow.inputConf r3
    /\ ConfidenceBudgetRow.outputConf r3 = ConfidenceBudgetRow.inputConf r4.
Proof.
  unfold computeUncertaintyMetrics, confidenceBudget; cbn [UncertaintyAnalysis.budget].
  do 4 eexists. split; [reflexivity |].
  repeat split; repeat constructor.
Qed.

(** C9: the findings are never empty and end with the SPATIAL finding of
    LOW severity; they come in the order ANALYTICAL, TEMPORAL, SPATIAL; and
    for a single object of [avgConfidence = 0.5] the first finding is the
    ANALYTICAL one, of HIGH severity. *)
Theorem blind_spots_order_and_presence :
  (forall objects events,
      let spots := UncertaintyAnalysis.blindSpots (computeUncertaintyMetrics objects events) in
      (1 <= length spots)%nat
      /\ (exists front,
            spots = front ++
              [BlindSpot.mk SPATIAL
                 "Perimeter distortion: Lens geometry reduces accuracy at frame edges > 85%."
                 LOW])
      /\ emittedInOrder spots)
  /\ (forall o events,
        TrackedObject.avgConfidence o == 1 # 2 ->
        exists first rest,
          UncertaintyAnalysis.blindSpots (computeUncertaintyMetrics [o] events)
            = first :: rest
          /\ BlindSpot.type first = ANALYTICAL
          /\ BlindSpot.severity first = HIGH).
Proof.
  split.
  - intros objects events spots. subst spots. cbn [computeUncertaintyMetrics UncertaintyAnalysis.blindSpots].
    destruct (detectBlindSpots_shape objects events) as [front [E Hfront]].
    rewrite E. split; [| split].
    + rewrite length_app. simpl. lia.
    + exists front. reflexivity.
    + unfold emittedInOrder. rewrite map_app.
      destruct Hfront as [F | [F | [F | F]]]; rewrite F; simpl;
        repeat constructor.
  - intros o events Ho.
    cbn [computeUncertaintyMetrics UncertaintyAnalysis.blindSpots].
    unfold detectBlindSpots, lowConfObjects. cbn [filter].
    assert (Hlow : Qltb (TrackedObject.avgConfidence o) (6 # 10) = true).
    { apply Qltb_lt. rewrite Ho. reflexivity. }
    rewrite Hlow.
    destruct (occlusionEvents events); cbn [length Nat.ltb Nat.leb app];
      do 2 eexists; (split; [reflexivity | split; reflexivity]).
Qed.

Lemma blind_spots_order_and_presence_witness :
  TrackedObject.avgConfidence (plainObject (1 # 2) 40 moving) == 1 # 2
  /\ exists first rest,
       UncertaintyAnalysis.blindSpots
         (computeUncertaintyMetrics [plainObject (1 # 2) 40 moving] [sampleOcclusion])
         = first :: rest
       /\ BlindSpot.type first = ANALYTICAL
       /\ BlindSpot.severity first = HIGH.
Proof.
  split; [reflexivity |].
  apply (proj2 blind_spots_order_and_presence (plainObject (1 # 2) 40 moving)
           [sampleOcclusion]).
  reflexivity.
Defined.

(** ** Lemmas on the kinematics engine *)

(** The scan returns: it neither throws nor runs out of rounds, its cursor
    does not move back, and it stops where the loop condition fails, at
    the last index or in front of a point that is not before [t]. *)
Lemma advance_returns (sorted : list SparsePoint) (t : Q) (n : nat) :
  forall idx,
    (length sorted - 1 - idx < n)%nat ->
    exists i,
      advance n sorted t idx = Returns i
      /\ (idx <= i)%nat
      /\ ((i < length sorted - 1)%nat ->
          exists p2, nth_error sorted (i + 1) = Some p2 /\ t <= fst p2).
Proof.
  induction n as [| n IH]; intros idx Hn; [lia |].
  cbn [advance]. destruct (idx <? length sorted - 1)%nat eqn:E.
  - apply Nat.ltb_lt in E.
    destruct (nth_error sorted (idx + 1)) as [p2 |] eqn:E2.
    + destruct (Qltb (fst p2) t) eqn:E3.
      * destruct (IH (S idx)) as [i [Hi [Hle Hex]]]; [lia |].
        exists i. split; [exact Hi |]. split; [lia | exact Hex].
      * exists idx. split; [reflexivity |]. split; [lia |].
        intros _. exists p2. split; [exact E2 |]. apply Qltb_ge. exact E3.
    + apply nth_error_None in E2. lia.
  - apply Nat.ltb_ge in E. exists idx. split; [reflexivity |].
    split; [lia | intros; lia].
Qed.

Lemma seek_returns (sorted : list SparsePoint) (t : Q) (idx : nat) :
  seek sorted t idx = Returns (seekIdx sorted t idx).
Proof.
  unfold seekIdx.
  destruct (advance_returns sorted t (S (length sorted)) idx) as [i [Hi _]]; [lia |].
  unfold seek. rewrite Hi. reflexivity.
Qed.

Section InterpolateLoop.

Variable sorted : list SparsePoint.
Variables duration step : Q.

Lemma interpolateLoop_more_fuel (k fuel : nat) :
  forall t idx dense out,
    interpolateLoop fuel sorted duration step t idx dense = Returns out ->
    interpolateLoop (fuel + k) sorted duration step t idx dense = Returns out.
Proof.
  induction fuel as [| fuel IH]; intros t idx dense out; simpl.
  - discriminate.
  - destruct (Qle_bool t duration); [| trivial].
    rewrite seek_returns. cbn [bind]. apply IH.
Qed.

(** The loop does not throw, whatever its fuel. *)
Lemma interpolateLoop_no_throw (fuel : nat) :
  forall t idx dense,
    interpolateLoop fuel sorted duration step t idx dense <> Throws.
Proof.
  induction fuel as [| fuel IH]; intros t idx dense; simpl.
  - discriminate.
  - destruct (Qle_bool t duration); [| discriminate].
    rewrite seek_returns. cbn [bind]. apply IH.
Qed.

(** The loop only appends to [dense]. *)
Lemma interpolateLoop_prefix (fuel : nat) :
  forall t idx dense out,
    interpolateLoop fuel sorted duration step t idx dense = Returns out ->
    exists tail, out = dense ++ tail.
Proof.
  induction fuel as [| fuel IH]; intros t idx dense out; simpl.
  - discriminate.
  - destruct (Qle_bool t duration).
    + rewrite seek_returns. cbn [bind].
      intros H. apply IH in H. destruct H as [tail ->].
      rewrite <- app_assoc. eexists; reflexivity.
    + intros [= <-]. exists []. symmetry; apply app_nil_r.
Qed.

(** Round [i] pushes the sample computed at clock [clock step i] with
    the cursor [cursorAt sorted step i]. *)
Lemma interpolateLoop_nth (fuel : nat) :
  forall i0 dense out,
    length dense = i0 ->
    interpolateLoop fuel sorted duration step
      (clock step i0) (cursorBefore sorted step i0) dense = Returns out ->
    forall i s, (i0 <= i)%nat -> nth_error out i = Some s ->
      s = sampleAt sorted (clock step i) (cursorAt sorted step i).
Proof.
  induction fuel as [| fuel IH]; intros i0 dense out Hlen; simpl.
  - discriminate.
  - destruct (Qle_bool (clock step i0) duration).
    + rewrite seek_returns. cbn [bind].
      intros H i s Hi Hs.
      destruct (Nat.eq_dec i i0) as [-> | Hne].
      * apply interpolateLoop_prefix in H. destruct H as [tail ->].
        rewrite <- app_assoc in Hs.
        rewrite nth_error_app2 in Hs by lia.
        rewrite Hlen, Nat.sub_diag in Hs. simpl in Hs.
        injection Hs as <-. reflexivity.
      * eapply (IH (S i0)); [| exact H | | exact Hs].
        -- rewrite length_app, Hlen. simpl. lia.
        -- lia.
    + intros [= <-] i s Hi Hs.
      assert (Hlt : (i < length dense)%nat).
      { apply nth_error_Some. rewrite Hs. discriminate. }
      lia.
Qed.

(** With a positive step the loop reaches its exit. *)
Lemma interpolateLoop_terminates (Hstep : 0 < step) (n : nat) :
  forall t idx dense,
    duration - t < inject_Z (Z.of_nat n) * step ->
    exists out, interpolateLoop (S n) sorted duration step t idx dense = Returns out.
Proof.
  induction n as [| n IH]; intros t idx dense Hn.
  - cbn [interpolateLoop].
    assert (E : Qle_bool t duration = false).
    { apply not_true_is_false. rewrite Qle_bool_iff.
      change (inject_Z (Z.of_nat 0)) with 0 in Hn. lra. }
    rewrite E. eexists; reflexivity.
  - cbn [interpolateLoop]. destruct (Qle_bool t duration).
    + rewrite seek_returns. cbn [bind]. apply IH.
      rewrite Nat2Z.inj_succ, <- Z.add_1_r, inject_Z_plus in Hn.
      change (inject_Z 1) with 1 in Hn. lra.
    + eexists; reflexivity.
Qed.

(** With a step that is not positive the loop never leaves a clock value
    that is within the duration. *)
Lemma interpolateLoop_diverges (Hstep : step <= 0) (fuel : nat) :
  forall t idx dense,
    t <= duration ->
    interpolateLoop fuel sorted duration step t idx dense = OutOfFuel.
Proof.
  induction fuel as [| fuel IH]; intros t idx dense Ht; simpl.
  - reflexivity.
  - assert (E : Qle_bool t duration = true) by (apply Qle_bool_iff; exact Ht).
    rewrite E, seek_returns. cbn [bind]. apply IH. lra.
Qed.

End InterpolateLoop.

Lemma rounds_bound (duration step : Q) :
  0 < step ->
  exists n : nat, duration - 0 < inject_Z (Z.of_nat n) * step.
Proof.
  intros Hstep.
  exists (Z.to_nat (Qfloor (duration / step) + 1)).
  assert (Hfl : duration / step < inject_Z (Qfloor (duration / step) + 1)).
  { apply Qlt_floor. }
  assert (Hle : inject_Z (Qfloor (duration / step) + 1)
                <= inject_Z (Z.of_nat (Z.to_nat (Qfloor (duration / step) + 1)))).
  { rewrite <- Zle_Qle. lia. }
  assert (Hd : duration == (duration / step) * step).
  { field. lra. }
  set (m := inject_Z (Z.of_nat _)) in *.
  set (q := duration / step) in *.
  setoid_replace (duration - 0) with (q * step) by (rewrite Hd at 1; ring).
  apply Qmult_lt_compat_r; [exact Hstep | lra].
Qed.

Lemma interpolateSeries_more_fuel (k fuel : nat) sparse duration step out :
  interpolateSeries fuel sparse duration step = Returns out ->
  interpolateSeries (fuel + k) sparse duration step = Returns out.
Proof.
  unfold interpolateSeries. destruct (length sparse <? 2)%nat; [trivial |].
  apply interpolateLoop_more_fuel.
Qed.

Lemma interpolateSeries_terminates sparse duration step :
  0 < step ->
  exists fuel out, interpolateSeries fuel sparse duration step = Returns out.
Proof.
  intros Hstep. unfold interpolateSeries.
  destruct (length sparse <? 2)%nat.
  - exists 0%nat, []. reflexivity.
  - destruct (rounds_bound duration step Hstep) as [n Hn].
    destruct (interpolateLoop_terminates (sortByTime sparse) duration step Hstep n
                0 0%nat [] Hn) as [out Hout].
    exists (S n), out. exact Hout.
Qed.

Lemma interpolateSeries_nth fuel sparse duration step out i s :
  interpolateSeries fuel sparse duration step = Returns out ->
  nth_error out i = Some s ->
  s = sampleAt (sortByTime sparse) (clock step i) (cursorAt (sortByTime sparse) step i).
Proof.
  unfold interpolateSeries. destruct (length sparse <? 2)%nat.
  - intros [= <-]. destruct i; discriminate.
  - intros H Hs.
    apply (interpolateLoop_nth (sortByTime sparse) duration step fuel 0 [] out
             eq_refl H i s); [lia | exact Hs].
Qed.

Lemma insertPoint_Forall (P : SparsePoint -> Prop) a l :
  P a -> Forall P l -> Forall P (insertPoint a l).
Proof.
  intros Ha. induction 1 as [| b l Hb Hl IH]; simpl.
  - constructor; [exact Ha | constructor].
  - destruct (Qltb 0 (compareTime a b)); repeat constructor; auto.
Qed.

Lemma sortByTime_Forall (P : SparsePoint -> Prop) l :
  Forall P l -> Forall P (sortByTime l).
Proof.
  induction 1 as [| a l Ha Hl IH]; simpl; [constructor |].
  apply insertPoint_Forall; assumption.
Qed.

(** The sort rearranges its input and leaves it ascending in time. *)
Lemma insertPoint_perm a l : Permutation (a :: l) (insertPoint a l).
Proof.
  induction l as [| b l IH]; simpl; [apply Permutation_refl |].
  destruct (Qltb 0 (compareTime a b)); [| apply Permutation_refl].
  eapply Permutation_trans; [apply perm_swap |].
  apply perm_skip, IH.
Qed.

Lemma sortByTime_perm l : Permutation l (sortByTime l).
Proof.
  induction l as [| a l IH]; simpl; [constructor |].
  eapply Permutation_trans; [apply perm_skip, IH | apply insertPoint_perm].
Qed.

Lemma insertPoint_sorted a l :
  StronglySorted (fun x y => fst x <= fst y) l ->
  StronglySorted (fun x y => fst x <= fst y) (insertPoint a l).
Proof.
  induction 1 as [| b l Hl IH Hb]; simpl.
  - repeat constructor.
  - destruct (Qltb 0 (compareTime a b)) eqn:E.
    + apply Qltb_lt in E. unfold compareTime in E.
      constructor; [exact IH |].
      apply insertPoint_Forall; [lra | exact Hb].
    + apply Qltb_ge in E. unfold compareTime in E.
      constructor; [constructor; assumption |].
      constructor; [lra |].
      eapply Forall_impl; [| exact Hb]. intros c Hc. simpl in Hc. lra.
Qed.

Lemma sortByTime_sorted l :
  StronglySorted (fun x y => fst x <= fst y) (sortByTime l).
Proof.
  induction l as [| a l IH]; simpl; [constructor |].
  apply insertPoint_sorted, IH.
Qed.

Lemma insertPoint_distinct a l :
  Forall (fun b => ~ fst a == fst b) l ->
  distinctTimes l -> distinctTimes (insertPoint a l).
Proof.
  unfold distinctTimes. intros Ha Hl. revert Ha.
  induction Hl as [| b l Hb Hl IH]; intros Ha; simpl.
  - repeat constructor.
  - inversion Ha as [| b' l' Hab Hal]; subst.
    destruct (Qltb 0 (compareTime a b)).
    + constructor; [| apply IH; exact Hal].
      apply insertPoint_Forall; [| exact Hb].
      intros E. apply Hab. symmetry. exact E.
    + constructor; [exact Ha |]. constructor; assumption.
Qed.

Lemma sortByTime_distinct l : distinctTimes l -> distinctTimes (sortByTime l).
Proof.
  unfold distinctTimes. induction 1 as [| a l Ha Hl IH]; simpl; [constructor |].
  apply insertPoint_distinct; [| exact IH].
  apply sortByTime_Forall. exact Ha.
Qed.

Lemma max0_not_negative x : JS.ltb (JS.max (JS.Fin 0) x) (JS.Fin 0) = false.
Proof.
  destruct x as [q | | |]; try reflexivity.
  unfold JS.max. destruct (JS.ltb (JS.Fin 0) (JS.Fin q)) eqn:E; [| reflexivity].
  simpl in *. apply Qltb_lt in E. apply Qltb_ge. lra.
Qed.

Lemma max0_nonneg q : JS.nonneg (JS.max (JS.Fin 0) (JS.Fin q)).
Proof.
  unfold JS.nonneg, JS.max. destruct (JS.ltb (JS.Fin 0) (JS.Fin q)) eqn:E; simpl in *.
  - apply Qltb_lt in E. apply Qle_bool_iff. lra.
  - reflexivity.
Qed.

(** ** Lemmas on the closing loop *)

Lemma closingLoop_length dense1 :
  forall dense2 d0,
    length (closingLoop dense1 dense2 d0) = Nat.min (length dense1) (length dense2).
Proof.
  induction dense1 as [| s1 dense1 IH]; intros [| s2 dense2] d0; simpl; auto.
Qed.

Lemma closeDistance_not_negative d cs : JS.ltb (closeDistance d cs) (JS.Fin 0) = false.
Proof.
  unfold closeDistance.
  destruct (JS.ltb (d - cs * JS.Fin (1 # 10))%js (JS.Fin 0)) eqn:E; [reflexivity | exact E].
Qed.

Lemma closingLoop_nth dense1 :
  forall dense2 d0 i r s1 s2,
    nth_error (closingLoop dense1 dense2 d0) i = Some r ->
    nth_error dense1 i = Some s1 ->
    nth_error dense2 i = Some s2 ->
    let before :=
      match i with
      | O => d0
      | S j =>
          match nth_error (closingLoop dense1 dense2 d0) j with
          | Some r' => ClosingSample.distance r'
          | None => d0
          end
      end in
    let closingSpeed := closingSpeedOf (DenseSample.value s1) (DenseSample.value s2) in
    ClosingSample.time r = DenseSample.time s1
    /\ ClosingSample.distance r = closeDistance before closingSpeed
    /\ ClosingSample.ttc r = ttcOf (ClosingSample.distance r) closingSpeed
    /\ ClosingSample.risk r = riskOf (ClosingSample.ttc r) (ClosingSample.distance r).
Proof.
  induction dense1 as [| a1 dense1 IH]; intros [| a2 dense2] d0 i r s1 s2;
    try (destruct i; discriminate).
  destruct i as [| i]; cbn [closingLoop nth_error].
  - intros [= <-] [= <-] [= <-]. cbn. repeat split.
  - intros Hr H1 H2.
    specialize (IH dense2 _ i r s1 s2 Hr H1 H2). cbv zeta in IH.
    destruct i as [| i]; [exact IH |].
    cbn [nth_error].
    destruct (nth_error (closingLoop dense1 dense2 _) i) eqn:Ei; [exact IH |].
    apply nth_error_None in Ei.
    assert (Hlt : (S i < length (closingLoop dense1 dense2
                      (closeDistance d0
                         (closingSpeedOf (DenseSample.value a1) (DenseSample.value a2)))))%nat).
    { apply nth_error_Some. rewrite Hr. discriminate. }
    lia.
Qed.

Lemma clock_linear (step : Q) (i : nat) :
  clock step i == inject_Z (Z.of_nat i) * step.
Proof.
  induction i as [| i IH].
  - simpl. change (inject_Z (Z.of_nat 0)) with 0. ring.
  - cbn [clock]. rewrite IH, Nat2Z.inj_succ, <- Z.add_1_r, inject_Z_plus.
    change (inject_Z 1) with 1. ring.
Qed.

(** ** The kinematics engine: claims *)

(** C1: the clamp [Math.max(0, value)] of the interior branch is missing
    from the flat-extrapolation branch.  On [[0,5],[1,-3]] with duration 2
    and step 1 the third sample, past the last point, has value [-3]. *)
Theorem interpolate_flat_tail_negative :
  exists dense s,
    interpolateSeries 4 [(0, 5); (1, - (3))] 2 1 = Returns dense
    /\ nth_error dense 2 = Some s
    /\ DenseSample.value s = JS.Fin (- (3))
    /\ ~ JS.nonneg (DenseSample.value s).
Proof.
  eexists. eexists. split; [vm_compute; reflexivity |].
  split; [reflexivity |]. split; [reflexivity |].
  unfold JS.nonneg. vm_compute. discriminate.
Qed.

(** Scenario A and the interior formula.  [interpolate([[0,0],[10,20]], 10, 1)]
    returns 11 samples, and its sample at time 5 has value 10; in every
    round [i], of clock [t], in which [sorted[currentIdx]] and
    [sorted[currentIdx + 1]] both exist, the emitted value is
    [Math.max(0, p1.value + (p2.value - p1.value) * ((t - p1.time) / (p2.time - p1.time)))],
    which is never below 0 but may be [NaN]. *)
Theorem interpolate_linear_between_anchors :
  (exists dense,
      (forall k, interpolateSeries (12 + k) [(0, 0); (10, 20)] 10 1 = Returns dense)
      /\ length dense = 11%nat
      /\ (exists s, nth_error dense 5 = Some s
                    /\ JS.eqv (DenseSample.time s) (JS.Fin 5)
                    /\ JS.eqv (DenseSample.value s) (JS.Fin 10))
      /\ Forall (fun s => JS.eqv (DenseSample.time s) (JS.Fin 5) ->
                          JS.eqv (DenseSample.value s) (JS.Fin 10)) dense)
  /\ (forall fuel sparse duration step dense i s p1 p2,
        interpolateSeries fuel sparse duration step = Returns dense ->
        nth_error dense i = Some s ->
        let sorted := sortByTime sparse in
        let t := clock step i in
        let idx := cursorAt sorted step i in
        nth_error sorted idx = Some p1 ->
        nth_error sorted (idx + 1) = Some p2 ->
        DenseSample.value s =
          JS.max (JS.Fin 0)
            (JS.Fin (snd p1)
             + JS.Fin (snd p2 - snd p1)
               * (JS.Fin (t - fst p1) / JS.Fin (fst p2 - fst p1)))%js
        /\ (DenseSample.value s <? JS.Fin 0)%js = false).
Proof.
  split.
  - eexists. split; [| split; [| split]].
    + intros k. apply interpolateSeries_more_fuel. vm_compute. reflexivity.
    + reflexivity.
    + eexists. split; [reflexivity |]. split; reflexivity.
    + repeat constructor; cbn [DenseSample.time DenseSample.value JS.eqv];
        unfold Qeq; cbn; intros H; try reflexivity; try discriminate H.
  - intros fuel sparse duration step dense i s p1 p2 Hrun Hs sorted t idx Hp1 Hp2.
    rewrite (interpolateSeries_nth _ _ _ _ _ _ _ Hrun Hs).
    unfold sampleAt. fold sorted. fold idx. rewrite Hp1, Hp2.
    cbn [DenseSample.value]. split; [reflexivity | apply max0_not_negative].
Qed.

(** C5: the value is not always the formula clamped to 0 or more.  On
    [[0,1],[0,2]] with duration 0 and step 1 both anchors exist at the
    clock 0, the interior division is [0 / 0], and the emitted value is
    [Math.max(0, NaN) = NaN], which is not [>= 0]. *)
Theorem interpolate_anchor_value_nan :
  exists dense s p1 p2,
    interpolateSeries 2 [(0, 1); (0, 2)] 0 1 = Returns dense
    /\ dense = [s]
    /\ nth_error (sortByTime [(0, 1); (0, 2)]) 0 = Some p1
    /\ nth_error (sortByTime [(0, 1); (0, 2)]) 1 = Some p2
    /\ DenseSample.value s
       = JS.max (JS.Fin 0)
           (JS.Fin (snd p1)
            + JS.Fin (snd p2 - snd p1) * (JS.Fin (0 - fst p1) / JS.Fin (fst p2 - fst p1)))%js
    /\ DenseSample.value s = JS.NaN
    /\ ~ JS.nonneg (DenseSample.value s).
Proof.
  do 4 eexists.
  split; [vm_compute; reflexivity |].
  split; [reflexivity |].
  split; [reflexivity |].
  split; [reflexivity |].
  split; [vm_compute; reflexivity |].
  split; [reflexivity |].
  unfold JS.nonneg. cbn. discriminate.
Qed.

(** With step 0, outside the range [step > 0] of the specification, the
    clock never passes the duration, and no amount of fuel yields a
    result. *)
Lemma interpolateSeries_zero_step_diverges :
  ~ (exists fuel dense, interpolateSeries fuel [(0, 0); (1, 1)] 0 0 = Returns dense).
Proof.
  intros [fuel [dense H]]. unfold interpolateSeries in H. cbn [length Nat.ltb Nat.leb] in H.
  rewrite interpolateLoop_diverges in H; [discriminate | | ]; apply Qle_refl.
Qed.

(** The one read that could throw, [sorted[currentIdx + 1][0]], is guarded
    by [currentIdx < sorted.length - 1]: no input raises an exception. *)
Lemma interpolateSeries_no_throw fuel (sparse : list SparsePoint) (duration step : Q) :
  interpolateSeries fuel sparse duration step <> Throws.
Proof.
  unfold interpolateSeries.
  destruct (length sparse <? 2)%nat; [discriminate |].
  apply interpolateLoop_no_throw.
Qed.

(** C6: the interior division does not always yield a well-defined sample
    value.  On [[1,9],[1,4]], two points sharing a timestamp, with duration
    1 and step 1, the call returns two samples: at the clock 0 the division
    is [-1 / 0] and the value [Infinity], at the clock 1 it is [0 / 0] and
    the value [NaN]. *)
Theorem interpolate_equal_timestamps_not_a_number :
  exists dense s0 s1,
    interpolateSeries 3 [(1, 9); (1, 4)] 1 1 = Returns dense
    /\ dense = [s0; s1]
    /\ DenseSample.value s0 = JS.PosInf
    /\ DenseSample.value s1 = JS.NaN
    /\ JS.isFinite (DenseSample.value s0) = false
    /\ JS.isFinite (DenseSample.value s1) = false.
Proof.
  do 3 eexists.
  split; [vm_compute; reflexivity |].
  split; [reflexivity |].
  repeat split.
Qed.

Lemma closingLoop_rows dense1 dense2 i r s1 s2 :
  nth_error (closingLoop dense1 dense2 startDistance) i = Some r ->
  nth_error dense1 i = Some s1 ->
  nth_error dense2 i = Some s2 ->
  closingRowSpec (distanceBefore (closingLoop dense1 dense2 startDistance) i) s1 s2 r.
Proof.
  intros Hr H1 H2.
  destruct (closingLoop_nth dense1 dense2 startDistance i r s1 s2 Hr H1 H2)
    as [Ht [Hd [Httc Hrisk]]].
  unfold closingRowSpec. cbv zeta.
  assert (Hbefore :
    match i with
    | O => startDistance
    | S j =>
        match nth_error (closingLoop dense1 dense2 startDistance) j with
        | Some r' => ClosingSample.distance r'
        | None => startDistance
        end
    end = distanceBefore (closingLoop dense1 dense2 startDistance) i).
  { destruct i; reflexivity. }
  rewrite Hbefore in Hd.
  split; [exact Ht |]. split; [exact Hd |].
  split; [rewrite Hd; apply closeDistance_not_negative |].
  split; [exact Httc |].
  rewrite Hrisk. unfold riskOf. apply andb_true_iff.
Qed.

(** [computeDistanceAndTTC] returns, and at each index of its result
    [closingSpeed] is [|v1 - v2|] for the two interpolated speeds, the
    distance is the previous one (50 at the start) less
    [closingSpeed * 0.1], reset to 0 when below 0, [ttc] is
    [distance / closingSpeed] when [closingSpeed > 1] and 10 otherwise,
    and [risk] holds exactly when [ttc < 2.5] and [distance < 20]; the
    result is as long as the shorter of the two dense series.  The reset
    [if (distance < 0) distance = 0] keeps the distance from being below 0,
    not from being [NaN]. *)
Theorem closing_metrics_per_index (obj1 obj2 : TrackedObject.t) (duration : Q) :
  (exists fuel results, computeDistanceAndTTC fuel obj1 obj2 duration = Returns results)
  /\ (forall fuel results,
        computeDistanceAndTTC fuel obj1 obj2 duration = Returns results ->
        exists dense1 dense2,
          interpolateSeries fuel (profileOf obj1) duration (1 # 10) = Returns dense1
          /\ interpolateSeries fuel (profileOf obj2) duration (1 # 10) = Returns dense2
          /\ length results = Nat.min (length dense1) (length dense2)
          /\ (forall i r s1 s2,
                nth_error results i = Some r ->
                nth_error dense1 i = Some s1 ->
                nth_error dense2 i = Some s2 ->
                closingRowSpec (distanceBefore results i) s1 s2 r)).
Proof.
  split.
  - assert (Hstep : 0 < defaultStep) by reflexivity.
    destruct (interpolateSeries_terminates (profileOf obj1) duration defaultStep Hstep)
      as [f1 [d1 H1]].
    destruct (interpolateSeries_terminates (profileOf obj2) duration defaultStep Hstep)
      as [f2 [d2 H2]].
    exists (f1 + f2)%nat, (closingLoop d1 d2 startDistance).
    unfold computeDistanceAndTTC.
    rewrite (interpolateSeries_more_fuel f2 f1 _ _ _ _ H1).
    rewrite (Nat.add_comm f1 f2).
    rewrite (interpolateSeries_more_fuel f1 f2 _ _ _ _ H2).
    reflexivity.
  - intros fuel results. unfold computeDistanceAndTTC. fold defaultStep.
    destruct (interpolateSeries fuel (profileOf obj1) duration defaultStep) as [dense1 | |];
      try discriminate.
    destruct (interpolateSeries fuel (profileOf obj2) duration defaultStep) as [dense2 | |];
      try discriminate.
    cbn [bind]. intros [= <-]. exists dense1, dense2.
    split; [reflexivity |]. split; [reflexivity |].
    split; [apply closingLoop_length |].
    intros i r s1 s2. apply closingLoop_rows.
Qed.

(** C7: the distance is not always clamped to 0 or more.  The first object
    has two observations at time 0, so its interpolated speed at the clock
    0 is [NaN]; the closing speed [|NaN - 0|] and the distance
    [50 - NaN * 0.1] are [NaN], which [distance < 0] does not reset; [ttc]
    is the sentinel 10 and [risk] is false. *)
Theorem closing_row_not_clamped :
  exists r,
    computeDistanceAndTTC 2
      (profiledObject [(0, 3); (0, 9)]) (profiledObject [(0, 0); (1, 4)]) 0
      = Returns [r]
    /\ JS.eqv (ClosingSample.time r) (JS.Fin 0)
    /\ ClosingSample.distance r = JS.NaN
    /\ ~ JS.nonneg (ClosingSample.distance r)
    /\ ClosingSample.ttc r = JS.Fin 10
    /\ ClosingSample.risk r = false.
Proof.
  eexists. split; [vm_compute; reflexivity |].
  split; [reflexivity |]. split; [reflexivity |].
  split; [unfold JS.nonneg; cbn; discriminate |].
  split; reflexivity.
Qed.

(** C10: two points with one timestamp make the interior division [0 / 0];
    the sample is [NaN], [Math.max(0, NaN)] and [distance < 0] let it
    through, and the distance of the first row is [NaN], outside
    [[0, 50]]. *)
Theorem closing_distance_nan_on_equal_timestamps :
  exists results r,
    computeDistanceAndTTC 2
      (profiledObject [(0, 1); (0, 2)]) (profiledObject [(0, 0); (1, 0)]) 0
      = Returns results
    /\ nth_error results 0 = Some r
    /\ ClosingSample.distance r = JS.NaN
    /\ ~ distanceInRange r.
Proof.
  do 2 eexists. split; [vm_compute; reflexivity |].
  split; [reflexivity |]. split; [reflexivity |].
  unfold distanceInRange. cbn. intros [H _]. discriminate H.
Qed.

(** ** Further properties of the kinematics engine *)

Lemma clock_step_order (step : Q) (a b : nat) :
  0 < step ->
  inject_Z (Z.of_nat a) * step < inject_Z (Z.of_nat b) * step ->
  (a < b)%nat.
Proof.
  intros Hstep H. apply Qmult_lt_r in H; [| exact Hstep].
  rewrite <- Zlt_Qlt in H. lia.
Qed.

Lemma floor_rounds (duration step : Q) :
  0 < step -> 0 <= duration ->
  let n := Z.to_nat (Qfloor (duration / step)) in
  inject_Z (Z.of_nat n) * step <= duration
  /\ duration < inject_Z (Z.of_nat (S n)) * step.
Proof.
  intros Hstep Hdur n.
  assert (Hq : 0 <= duration / step).
  { apply Qle_shift_div_l; [exact Hstep | lra]. }
  assert (Hz : (0 <= Qfloor (duration / step))%Z).
  { change 0%Z with (Qfloor 0). apply Qfloor_resp_le, Hq. }
  assert (Hd : duration == (duration / step) * step) by (field; lra).
  pose proof (Qfloor_le (duration / step)) as Hfl.
  pose proof (Qlt_floor (duration / step)) as Hfu.
  unfold n. rewrite Nat2Z.inj_succ, Z2Nat.id by exact Hz.
  unfold Z.succ.
  set (q := duration / step) in *. set (z := Qfloor q) in *.
  split.
  - rewrite Hd. apply Qmult_le_compat_r; [exact Hfl | lra].
  - rewrite Hd. apply Qmult_lt_compat_r; [exact Hstep | exact Hfu].
Qed.

Lemma Qfloor_unique (x : Q) (z : Z) :
  inject_Z z <= x -> x < inject_Z (z + 1) -> Qfloor x = z.
Proof.
  intros Hlo Hhi.
  pose proof (Qfloor_le x) as Hfl. pose proof (Qlt_floor x) as Hfu.
  assert (H1 : inject_Z (Qfloor x) < inject_Z (z + 1)) by lra.
  assert (H2 : inject_Z z < inject_Z (Qfloor x + 1)) by lra.
  rewrite <- Zlt_Qlt in H1, H2. lia.
Qed.

Lemma toFixed1_comp (x y : Q) : x == y -> toFixed1 x == toFixed1 y.
Proof.
  intros H. unfold toFixed1.
  assert (E1 : Qle_bool (10 ^ 21) (Qabs x) = Qle_bool (10 ^ 21) (Qabs y))
    by (rewrite H; reflexivity).
  assert (E2 : Qltb x 0 = Qltb y 0) by (unfold Qltb; rewrite H; reflexivity).
  assert (E3 : Qfloor (10 * - x + (1 # 2)) = Qfloor (10 * - y + (1 # 2)))
    by (rewrite H; reflexivity).
  assert (E4 : Qfloor (10 * x + (1 # 2)) = Qfloor (10 * y + (1 # 2)))
    by (rewrite H; reflexivity).
  rewrite E1, E2, E3, E4.
  destruct (Qle_bool (10 ^ 21) (Qabs y)); [exact H | reflexivity].
Qed.

(** Rounding to one decimal leaves a multiple of one tenth as it is. *)
Lemma toFixed1_tenths (k : nat) :
  toFixed1 (inject_Z (Z.of_nat k) / 10) == inject_Z (Z.of_nat k) / 10.
Proof.
  unfold toFixed1.
  destruct (Qle_bool (10 ^ 21) (Qabs (inject_Z (Z.of_nat k) / 10))); [reflexivity |].
  assert (Hk : 0 <= inject_Z (Z.of_nat k)).
  { change 0 with (inject_Z 0). rewrite <- Zle_Qle. lia. }
  assert (E : Qltb (inject_Z (Z.of_nat k) / 10) 0 = false).
  { apply Qltb_ge. apply Qle_shift_div_l; [reflexivity | lra]. }
  rewrite E.
  assert (F : Qfloor (10 * (inject_Z (Z.of_nat k) / 10) + (1 # 2)) = Z.of_nat k).
  { apply Qfloor_unique.
    - setoid_replace (10 * (inject_Z (Z.of_nat k) / 10)) with (inject_Z (Z.of_nat k))
        by field. lra.
    - rewrite inject_Z_plus. change (inject_Z 1) with 1.
      setoid_replace (10 * (inject_Z (Z.of_nat k) / 10)) with (inject_Z (Z.of_nat k))
        by field. lra. }
  rewrite F. reflexivity.
Qed.

Lemma nth_error_last (l : list SparsePoint) (d : SparsePoint) :
  l <> [] -> nth_error l (length l - 1) = Some (last l d).
Proof.
  induction l as [| a l IH]; [congruence |]. intros _.
  destruct l as [| b l]; [reflexivity |].
  replace (length (a :: b :: l) - 1)%nat with (S (length (b :: l) - 1))
    by (simpl; lia).
  cbn [nth_error]. rewrite IH by discriminate. reflexivity.
Qed.

Lemma sorted_last_max (l : list SparsePoint) (d : SparsePoint) :
  StronglySorted (fun x y => fst x <= fst y) l ->
  forall p, In p l -> fst p <= fst (last l d).
Proof.
  induction 1 as [| a l Hl IH Ha]; intros p Hin; [contradiction |].
  destruct l as [| b l].
  - destruct Hin as [<- | []]. simpl. lra.
  - change (last (a :: b :: l) d) with (last (b :: l) d).
    destruct Hin as [<- | Hin]; [| apply IH, Hin].
    rewrite Forall_forall in Ha.
    assert (Hb : fst a <= fst b) by (apply Ha; left; reflexivity).
    assert (Hl' : fst b <= fst (last (b :: l) d)) by (apply IH; left; reflexivity).
    lra.
Qed.

Lemma in_sortByTime (sparse : list SparsePoint) (p : SparsePoint) :
  In p (sortByTime sparse) <-> In p sparse.
Proof.
  split; apply Permutation_in;
    [apply Permutation_sym |]; apply sortByTime_perm.
Qed.

(** ** Properties of [computeAcceleration] and [computeEnergy] *)

Lemma accelerationAfter_length rest :
  forall prev, length (accelerationAfter prev rest) = length rest.
Proof.
  induction rest as [| point rest IH]; intros prev; simpl; [| rewrite IH]; reflexivity.
Qed.

Lemma accelerationAfter_nth rest :
  forall prev i point,
    nth_error rest i = Some point ->
    exists before,
      match i with O => Some prev | S j => nth_error rest j end = Some before
      /\ nth_error (accelerationAfter prev rest) i =
         Some (DenseSample.mk (DenseSample.time point)
                 (if (DenseSample.time point - DenseSample.time before >? JS.Fin 0)%js
                  then ((DenseSample.value point - DenseSample.value before)
                        / (DenseSample.time point - DenseSample.time before))%js
                  else JS.Fin 0)).
Proof.
  induction rest as [| p0 rest IH]; intros prev i point; [destruct i; discriminate |].
  destruct i as [| i]; cbn [nth_error accelerationAfter].
  - intros [= <-]. exists prev. split; reflexivity.
  - intros Hp. destruct (IH p0 i point Hp) as [before [Hb Hn]].
    exists before. split; [destruct i; exact Hb | exact Hn].
Qed.

(** X6: [computeAcceleration] keeps the length and the times of the
    series; its first value is 0, and the value at a later index is the
    difference of the two values over the difference of the two times when
    that time difference is above 0, and 0 otherwise. *)
Theorem acceleration_backward_difference (speedSeries : list DenseSample.t) :
  length (computeAcceleration speedSeries) = length speedSeries
  /\ forall i point,
       nth_error speedSeries i = Some point ->
       exists a,
         nth_error (computeAcceleration speedSeries) i = Some a
         /\ DenseSample.time a = DenseSample.time point
         /\ match i with
            | O => DenseSample.value a = JS.Fin 0
            | S j =>
                exists prev,
                  nth_error speedSeries j = Some prev
                  /\ DenseSample.value a =
                     (if (DenseSample.time point - DenseSample.time prev >? JS.Fin 0)%js
                      then ((DenseSample.value point - DenseSample.value prev)
                            / (DenseSample.time point - DenseSample.time prev))%js
                      else JS.Fin 0)
            end.
Proof.
  destruct speedSeries as [| first rest]; cbn [computeAcceleration].
  - split; [reflexivity |]. intros i point H. destruct i; discriminate.
  - split; [cbn [length]; rewrite accelerationAfter_length; reflexivity |].
    intros [| i] point; cbn [nth_error].
    + intros [= <-]. eexists. repeat split.
    + intros Hp. destruct (accelerationAfter_nth rest first i point Hp) as [prev [Hb Hn]].
      eexists. split; [exact Hn |]. split; [reflexivity |].
      exists prev. split; [destruct i; exact Hb | reflexivity].
Qed.

Lemma acceleration_backward_difference_witness :
  exists a,
    nth_error [DenseSample.mk (JS.Fin 0) (JS.Fin 3); DenseSample.mk (JS.Fin 2) (JS.Fin 7)]
      1 = Some (DenseSample.mk (JS.Fin 2) (JS.Fin 7))
    /\ nth_error
         (computeAcceleration
            [DenseSample.mk (JS.Fin 0) (JS.Fin 3); DenseSample.mk (JS.Fin 2) (JS.Fin 7)])
         1 = Some a
    /\ DenseSample.time a = JS.Fin 2.
Proof.
  destruct (proj2 (acceleration_backward_difference
                     [DenseSample.mk (JS.Fin 0) (JS.Fin 3);
                      DenseSample.mk (JS.Fin 2) (JS.Fin 7)])
              1%nat _ eq_refl) as [a [Ha [Ht _]]].
  exists a. split; [reflexivity |]. split; [exact Ha | exact Ht].
Defined.

Lemma interpolateSeries_default_time fuel sparse duration dense i s :
  interpolateSeries fuel sparse duration defaultStep = Returns dense ->
  nth_error dense i = Some s ->
  exists t, DenseSample.time s = JS.Fin t /\ t == inject_Z (Z.of_nat i) / 10.
Proof.
  intros H Hs. rewrite (interpolateSeries_nth _ _ _ _ _ _ _ H Hs).
  exists (toFixed1 (clock defaultStep i)). split.
  - unfold sampleAt.
    destruct (nth_error (sortByTime sparse) (cursorAt (sortByTime sparse) defaultStep i));
      [destruct (nth_error (sortByTime sparse)
                   (cursorAt (sortByTime sparse) defaultStep i + 1)) |];
      reflexivity.
  - rewrite <- toFixed1_tenths. apply toFixed1_comp.
    rewrite clock_linear. unfold defaultStep. field.
Qed.

(** X9: a series whose speeds are all equal has the acceleration 0 at
    every index, whatever its times are. *)
Theorem acceleration_of_constant_speed (speedSeries : list DenseSample.t) (c : Q) :
  Forall (fun s => exists v, DenseSample.value s = JS.Fin v /\ v == c) speedSeries ->
  Forall (fun a => exists w, DenseSample.value a = JS.Fin w /\ w == 0)
    (computeAcceleration speedSeries).
Proof.
  intros H. destruct speedSeries as [| first rest]; cbn [computeAcceleration];
    [constructor |].
  inversion H as [| ? ? Hfirst Hrest]; subst.
  constructor; [exists 0; split; reflexivity |].
  clear H. revert first Hfirst.
  induction Hrest as [| point rest Hpoint Hrest IH]; intros prev Hprev;
    cbn [accelerationAfter]; [constructor |].
  constructor; [| apply IH; exact Hpoint].
  destruct Hprev as [v0 [E0 Hv0]], Hpoint as [v1 [E1 Hv1]].
  cbn [DenseSample.value]. rewrite E0, E1.
  destruct (DenseSample.time point - DenseSample.time prev)%js as [dt | | |];
    cbn [JS.gtb JS.ltb JS.sub JS.neg JS.add JS.div].
  - destruct (Qltb 0 dt) eqn:E; [| exists 0; split; reflexivity].
    apply Qltb_lt in E.
    assert (F : Qeqb dt 0 = false) by (apply Qeqb_neq; intros F; lra).
    rewrite F. eexists. split; [reflexivity |]. rewrite Hv0, Hv1. field. lra.
  - exists 0. split; reflexivity.
  - exists 0. split; reflexivity.
  - exists 0. split; reflexivity.
Qed.

Lemma acceleration_of_constant_speed_witness :
  Forall (fun s => exists v, DenseSample.value s = JS.Fin v /\ v == 4)
    [DenseSample.mk (JS.Fin 0) (JS.Fin 4); DenseSample.mk (JS.Fin 1) (JS.Fin (8 # 2))]
  /\ Forall (fun a => exists w, DenseSample.value a = JS.Fin w /\ w == 0)
       (computeAcceleration
          [DenseSample.mk (JS.Fin 0) (JS.Fin 4); DenseSample.mk (JS.Fin 1) (JS.Fin (8 # 2))]).
Proof.
  assert (H : Forall (fun s => exists v, DenseSample.value s = JS.Fin v /\ v == 4)
                [DenseSample.mk (JS.Fin 0) (JS.Fin 4);
                 DenseSample.mk (JS.Fin 1) (JS.Fin (8 # 2))]).
  { repeat constructor; eexists; (split; [reflexivity | reflexivity]). }
  split; [exact H | apply (acceleration_of_constant_speed _ 4 H)].
Defined.

(** ** Further properties of [computeDistanceAndTTC] *)

Lemma computeDistanceAndTTC_unfold fuel obj1 obj2 duration results :
  computeDistanceAndTTC fuel obj1 obj2 duration = Returns results ->
  exists dense1 dense2,
    interpolateSeries fuel (profileOf obj1) duration defaultStep = Returns dense1
    /\ interpolateSeries fuel (profileOf obj2) duration defaultStep = Returns dense2
    /\ results = closingLoop dense1 dense2 startDistance.
Proof.
  unfold computeDistanceAndTTC.
  destruct (interpolateSeries fuel (profileOf obj1) duration defaultStep)
    as [dense1 | |]; try discriminate.
  destruct (interpolateSeries fuel (profileOf obj2) duration defaultStep)
    as [dense2 | |]; try discriminate.
  cbn [bind]. intros [= <-]. exists dense1, dense2. repeat split.
Qed.

(** X13: a row is flagged as a risk only when the two speeds differ by more
    than 1; its time-to-collision is then the distance over that
    difference, below 2.5, and its distance is below 20. *)
Theorem risk_needs_closing_speed fuel obj1 obj2 duration results dense1 dense2 i r s1 s2 :
  computeDistanceAndTTC fuel obj1 obj2 duration = Returns results ->
  interpolateSeries fuel (profileOf obj1) duration defaultStep = Returns dense1 ->
  interpolateSeries fuel (profileOf obj2) duration defaultStep = Returns dense2 ->
  nth_error results i = Some r ->
  nth_error dense1 i = Some s1 ->
  nth_error dense2 i = Some s2 ->
  ClosingSample.risk r = true ->
  let closingSpeed := JS.abs (DenseSample.value s1 - DenseSample.value s2)%js in
  (closingSpeed >? JS.Fin 1)%js = true
  /\ ClosingSample.ttc r = (ClosingSample.distance r / closingSpeed)%js
  /\ (ClosingSample.ttc r <? JS.Fin (5 # 2))%js = true
  /\ (ClosingSample.distance r <? JS.Fin 20)%js = true.
Proof.
  intros H E1 E2 Hr H1 H2 Hrisk closingSpeed.
  destruct (computeDistanceAndTTC_unfold _ _ _ _ _ H) as [d1 [d2 [E1' [E2' ->]]]].
  rewrite E1 in E1'. rewrite E2 in E2'. injection E1' as <-. injection E2' as <-.
  destruct (closingLoop_rows dense1 dense2 i r s1 s2 Hr H1 H2)
    as [_ [_ [_ [Httc Hiff]]]].
  apply Hiff in Hrisk. destruct Hrisk as [Hlt Hd].
  fold closingSpeed in Httc.
  destruct (closingSpeed >? JS.Fin 1)%js eqn:E.
  - repeat split; assumption.
  - rewrite Httc in Hlt. discriminate Hlt.
Qed.

Lemma risk_needs_closing_speed_witness :
  exists results dense1 dense2 r s1 s2,
    computeDistanceAndTTC 2
      (profiledObject [(0, 400); (1, 400)]) (profiledObject [(0, 0); (1, 0)]) 0
      = Returns results
    /\ interpolateSeries 2 [(0, 400); (1, 400)] 0 defaultStep = Returns dense1
    /\ interpolateSeries 2 [(0, 0); (1, 0)] 0 defaultStep = Returns dense2
    /\ nth_error results 0 = Some r
    /\ nth_error dense1 0 = Some s1
    /\ nth_error dense2 0 = Some s2
    /\ ClosingSample.risk r = true
    /\ (JS.abs (DenseSample.value s1 - DenseSample.value s2)%js >? JS.Fin 1)%js = true.
Proof.
  do 6 eexists.
  split; [vm_compute; reflexivity |]. split; [vm_compute; reflexivity |].
  split; [vm_compute; reflexivity |]. split; [reflexivity |].
  split; [reflexivity |]. split; [reflexivity |]. split; [reflexivity |].
  refine (proj1 (risk_needs_closing_speed 2
                   (profiledObject [(0, 400); (1, 400)]) (profiledObject [(0, 0); (1, 0)])
                   0 _ _ _ 0%nat _ _ _ _ _ _ _ _ _ _)).
  - vm_compute; reflexivity.
  - vm_compute; reflexivity.
  - vm_compute; reflexivity.
  - reflexivity.
  - reflexivity.
  - reflexivity.
  - reflexivity.
Defined.

Lemma interpolateSeries_empty fuel sparse duration step dense :
  interpolateSeries fuel sparse duration step = Returns dense ->
  (length sparse < 2)%nat \/ duration < 0 ->
  dense = [].
Proof.
  unfold interpolateSeries. intros H [Hlen | Hneg].
  - apply Nat.ltb_lt in Hlen. rewrite Hlen in H. congruence.
  - destruct (length sparse <? 2)%nat; [congruence |].
    destruct fuel as [| fuel]; [discriminate |]. cbn [interpolateLoop] in H.
    assert (E : Qle_bool 0 duration = false).
    { apply not_true_is_false. rewrite Qle_bool_iff. lra. }
    rewrite E in H. congruence.
Qed.

(** X14: when either object has no speed profile or one of fewer than two
    points, or when the duration is negative, the closing series is
    empty. *)
Theorem closing_empty_without_profile fuel obj1 obj2 duration results :
  computeDistanceAndTTC fuel obj1 obj2 duration = Returns results ->
  (length (profileOf obj1) < 2)%nat \/ (length (profileOf obj2) < 2)%nat \/ duration < 0 ->
  results = [].
Proof.
  intros H Hcase.
  destruct (computeDistanceAndTTC_unfold _ _ _ _ _ H) as [dense1 [dense2 [E1 [E2 ->]]]].
  destruct Hcase as [H1 | [H2 | Hneg]].
  - rewrite (interpolateSeries_empty _ _ _ _ _ E1 (or_introl H1)). reflexivity.
  - rewrite (interpolateSeries_empty _ _ _ _ _ E2 (or_introl H2)).
    destruct dense1; reflexivity.
  - rewrite (interpolateSeries_empty _ _ _ _ _ E1 (or_intror Hneg)). reflexivity.
Qed.

Lemma closing_empty_without_profile_witness :
  exists results,
    computeDistanceAndTTC 3 (plainObject 1 30 moving) (profiledObject [(0, 0); (1, 9)])
      (1 # 10) = Returns results
    /\ (length (profileOf (plainObject 1 30 moving)) < 2)%nat
    /\ results = [].
Proof.
  assert (Hlen : (length (profileOf (plainObject 1 30 moving)) < 2)%nat) by (simpl; lia).
  eexists. split; [vm_compute; reflexivity |]. split; [exact Hlen |].
  apply (closing_empty_without_profile 3 (plainObject 1 30 moving)
           (profiledObject [(0, 0); (1, 9)]) (1 # 10)).
  - vm_compute; reflexivity.
  - left. exact Hlen.
Defined.

(** ** Further properties of the uncertainty engine *)




(** X20: for an object with [avgConfidence] in [[0, 1]] the uncertainty
    grows along the chain: position, velocity, acceleration; and the
    persistence risk is at least the position uncertainty. *)
Theorem uncertainty_amplifies (obj : TrackedObject.t) :
  inUnit (TrackedObject.avgConfidence obj) ->
  let n := uncertaintyNode obj in
  UncertaintyNode.posUncertainty n <= UncertaintyNode.velUncertainty n
  /\ UncertaintyNode.velUncertainty n <= UncertaintyNode.accelUncertainty n
  /\ UncertaintyNode.posUncertainty n <= UncertaintyNode.persistenceRisk n.
Proof.
  intros [H0 H1]. unfold uncertaintyNode; simpl.
  set (c := TrackedObject.avgConfidence obj) in *.
  destruct (Qltb 80 (TrackedObject.maxSpeed obj));
    destruct (TrackedObject.motionState obj);
    split_min; repeat split; lra.
Qed.

Lemma uncertainty_amplifies_witness :
  inUnit (TrackedObject.avgConfidence (plainObject (7 # 10) 90 erratic))
  /\ UncertaintyNode.posUncertainty (uncertaintyNode (plainObject (7 # 10) 90 erratic))
     <= UncertaintyNode.velUncertainty (uncertaintyNode (plainObject (7 # 10) 90 erratic)).
Proof.
  assert (H : inUnit (TrackedObject.avgConfidence (plainObject (7 # 10) 90 erratic))).
  { split; simpl; discriminate. }
  split; [exact H |].
  exact (proj1 (uncertainty_amplifies (plainObject (7 # 10) 90 erratic) H)).
Defined.

(** X21: of two objects with the same [maxSpeed] and [motionState], the
    one with the higher [avgConfidence] has no larger uncertainty in any of
    the four fields. *)
Theorem uncertainty_antitone_in_confidence (o1 o2 : TrackedObject.t) :
  TrackedObject.maxSpeed o1 = TrackedObject.maxSpeed o2 ->
  TrackedObject.motionState o1 = TrackedObject.motionState o2 ->
  TrackedObject.avgConfidence o1 <= TrackedObject.avgConfidence o2 ->
  UncertaintyNode.posUncertainty (uncertaintyNode o2)
    <= UncertaintyNode.posUncertainty (uncertaintyNode o1)
  /\ UncertaintyNode.velUncertainty (uncertaintyNode o2)
     <= UncertaintyNode.velUncertainty (uncertaintyNode o1)
  /\ UncertaintyNode.accelUncertainty (uncertaintyNode o2)
     <= UncertaintyNode.accelUncertainty (uncertaintyNode o1)
  /\ UncertaintyNode.persistenceRisk (uncertaintyNode o2)
     <= UncertaintyNode.persistenceRisk (uncertaintyNode o1).
Proof.
  intros Hs Hm Hc. unfold uncertaintyNode; simpl. rewrite Hs, Hm.
  set (c1 := TrackedObject.avgConfidence o1) in *.
  set (c2 := TrackedObject.avgConfidence o2) in *.
  destruct (Qltb 80 (TrackedObject.maxSpeed o2));
    destruct (TrackedObject.motionState o2);
    split_min; repeat split; lra.
Qed.

Lemma uncertainty_antitone_in_confidence_witness :
  TrackedObject.avgConfidence (plainObject (3 # 10) 90 moving)
    <= TrackedObject.avgConfidence (plainObject (8 # 10) 90 moving)
  /\ UncertaintyNode.velUncertainty (uncertaintyNode (plainObject (8 # 10) 90 moving))
     <= UncertaintyNode.velUncertainty (uncertaintyNode (plainObject (3 # 10) 90 moving)).
Proof.
  assert (H : TrackedObject.avgConfidence (plainObject (3 # 10) 90 moving)
              <= TrackedObject.avgConfidence (plainObject (8 # 10) 90 moving))
    by (simpl; discriminate).
  split; [exact H |].
  exact (proj1 (proj2 (uncertainty_antitone_in_confidence
                         (plainObject (3 # 10) 90 moving)
                         (plainObject (8 # 10) 90 moving) eq_refl eq_refl H))).
Defined.

(** X22: of two objects with the same [avgConfidence], the faster one has
    no smaller velocity and acceleration uncertainty: the penalty for a
    [maxSpeed] above 80 never lowers them. *)
Theorem uncertainty_monotone_in_speed (o1 o2 : TrackedObject.t) :
  TrackedObject.avgConfidence o1 = TrackedObject.avgConfidence o2 ->
  TrackedObject.maxSpeed o1 <= TrackedObject.maxSpeed o2 ->
  UncertaintyNode.velUncertainty (uncertaintyNode o1)
    <= UncertaintyNode.velUncertainty (uncertaintyNode o2)
  /\ UncertaintyNode.accelUncertainty (uncertaintyNode o1)
     <= UncertaintyNode.accelUncertainty (uncertaintyNode o2).
Proof.
  intros Hc Hs. unfold uncertaintyNode; simpl. rewrite Hc.
  set (c := TrackedObject.avgConfidence o2) in *.
  destruct (Qltb 80 (TrackedObject.maxSpeed o1)) eqn:E1;
    destruct (Qltb 80 (TrackedObject.maxSpeed o2)) eqn:E2.
  - split; apply Qle_refl.
  - apply Qltb_lt in E1. apply Qltb_ge in E2. lra.
  - split_min; split; lra.
  - split; apply Qle_refl.
Qed.

Lemma uncertainty_monotone_in_speed_witness :
  TrackedObject.maxSpeed (plainObject (8 # 10) 40 moving)
    <= TrackedObject.maxSpeed (plainObject (8 # 10) 90 moving)
  /\ UncertaintyNode.velUncertainty (uncertaintyNode (plainObject (8 # 10) 40 moving))
     <= UncertaintyNode.velUncertainty (uncertaintyNode (plainObject (8 # 10) 90 moving)).
Proof.
  assert (H : TrackedObject.maxSpeed (plainObject (8 # 10) 40 moving)
              <= TrackedObject.maxSpeed (plainObject (8 # 10) 90 moving))
    by (simpl; discriminate).
  split; [exact H |].
  exact (proj1 (uncertainty_monotone_in_speed
                  (plainObject (8 # 10) 40 moving)
                  (plainObject (8 # 10) 90 moving) eq_refl H)).
Defined.

(** ** Properties of [withRetry] *)

Section Retry.

Context {T : Type}.
Variable attempts : nat -> Settled T.
Variable randoms : nat -> Q.

(** A call whose first invocation is not retried. *)
Lemma retryFrom_stops (retries : nat) (backoff : Q) (k : nat) (sleeps : list Q) :
  (rateLimited (attempts k) -> retries = 0%nat) ->
  Run.calls (retryFrom attempts randoms retries backoff k sleeps) = S k
  /\ Run.sleeps (retryFrom attempts randoms retries backoff k sleeps) = sleeps
  /\ (breaksTest (attempts k) ->
      Run.settled (retryFrom attempts randoms retries backoff k sleeps) = TestThrew)
  /\ (~ breaksTest (attempts k) ->
      Run.settled (retryFrom attempts randoms retries backoff k sleeps)
      = SettledAs (attempts k)).
Proof.
  intros Hstop.
  destruct (attempts k) as [v | error] eqn:Ha.
  - assert (E : retryFrom attempts randoms retries backoff k sleeps
                = Run.mk (SettledAs (Fulfilled v)) sleeps (S k))
      by (destruct retries; cbn; rewrite Ha; reflexivity).
    rewrite E. cbn. repeat split; try reflexivity.
    intros [e [He _]]. discriminate He.
  - destruct (isRateLimit error) as [[|] |] eqn:Hrl.
    + assert (Hr : retries = 0%nat).
      { apply Hstop. exists error. split; [reflexivity | exact Hrl]. }
      subst retries. cbn. rewrite Ha, Hrl. cbn. repeat split; try reflexivity.
      intros [e [He Hn]]. injection He as <-. congruence.
    + assert (E : retryFrom attempts randoms retries backoff k sleeps
                  = Run.mk (SettledAs (Rejected error)) sleeps (S k))
        by (destruct retries; cbn; rewrite Ha, Hrl; reflexivity).
      rewrite E. cbn. repeat split; try reflexivity.
      intros [e [He Hn]]. injection He as <-. congruence.
    + assert (E : retryFrom attempts randoms retries backoff k sleeps
                  = Run.mk TestThrew sleeps (S k))
        by (destruct retries; cbn; rewrite Ha, Hrl; reflexivity).
      rewrite E. cbn. repeat split; try reflexivity.
      intros Hn. exfalso. apply Hn. exists error. split; [reflexivity | exact Hrl].
Qed.

(** The shape of a run: [m] retries, each after a rate-limit rejection,
    then the invocation that decides. *)
Lemma retryFrom_spec (retries : nat) :
  forall backoff k sleeps,
    exists m,
      (m <= retries)%nat
      /\ Run.calls (retryFrom attempts randoms retries backoff k sleeps) = (k + m + 1)%nat
      /\ Run.sleeps (retryFrom attempts randoms retries backoff k sleeps)
         = sleeps ++ List.map (fun j => backoffAt backoff j + randoms (k + j)%nat * 2000)
                       (seq 0 m)
      /\ (forall j, (j < m)%nat -> rateLimited (attempts (k + j)%nat))
      /\ (breaksTest (attempts (k + m)%nat) ->
          Run.settled (retryFrom attempts randoms retries backoff k sleeps) = TestThrew)
      /\ (~ breaksTest (attempts (k + m)%nat) ->
          Run.settled (retryFrom attempts randoms retries backoff k sleeps)
          = SettledAs (attempts (k + m)%nat))
      /\ (rateLimited (attempts (k + m)%nat) -> m = retries).
Proof.
  assert (Hzero : forall retries backoff k sleeps,
            (rateLimited (attempts k) -> retries = 0%nat) ->
            exists m,
              (m <= retries)%nat
              /\ Run.calls (retryFrom attempts randoms retries backoff k sleeps)
                 = (k + m + 1)%nat
              /\ Run.sleeps (retryFrom attempts randoms retries backoff k sleeps)
                 = sleeps ++ List.map
                               (fun j => backoffAt backoff j + randoms (k + j)%nat * 2000)
                               (seq 0 m)
              /\ (forall j, (j < m)%nat -> rateLimited (attempts (k + j)%nat))
              /\ (breaksTest (attempts (k + m)%nat) ->
                  Run.settled (retryFrom attempts randoms retries backoff k sleeps)
                  = TestThrew)
              /\ (~ breaksTest (attempts (k + m)%nat) ->
                  Run.settled (retryFrom attempts randoms retries backoff k sleeps)
                  = SettledAs (attempts (k + m)%nat))
              /\ (rateLimited (attempts (k + m)%nat) -> m = retries)).
  { intros n b k sl Hstop. exists 0%nat.
    destruct (retryFrom_stops n b k sl Hstop) as [Hc [Hs [Hthrew Hsame]]].
    rewrite Nat.add_0_r, Hc, Hs. cbn [seq List.map].
    split; [lia |]. split; [lia |]. split; [symmetry; apply app_nil_r |].
    split; [intros j Hj; lia |]. split; [exact Hthrew |]. split; [exact Hsame |].
    intros Hr. symmetry. apply Hstop, Hr. }
  induction retries as [| retries IH]; intros backoff k sleeps.
  - apply Hzero. reflexivity.
  - destruct (attempts k) as [v | error] eqn:Ha.
    + apply Hzero. rewrite Ha. intros [e [He _]]. discriminate He.
    + destruct (isRateLimit error) as [[|] |] eqn:Hrl.
      * cbn [retryFrom]. rewrite Ha, Hrl.
        destruct (IH (backoff * (15 # 10)) (S k)
                    (sleeps ++ [backoff + randoms k * 2000]))
          as [m [Hm [Hc [Hs [Hall [Hthrew [Hsame Hlast]]]]]]].
        exists (S m). replace (k + S m)%nat with (S k + m)%nat by lia.
        split; [lia |]. split; [rewrite Hc; lia |].
        split; [| split; [| split; [exact Hthrew | split; [exact Hsame |]]]].
        -- rewrite Hs, <- app_assoc. f_equal.
           cbn [seq List.map backoffAt]. rewrite Nat.add_0_r.
           apply (f_equal (cons (backoff + randoms k * 2000))).
           rewrite <- seq_shift, map_map. apply map_ext. intros j.
           cbn [backoffAt]. rewrite Nat.add_succ_r. reflexivity.
        -- intros [| j] Hj.
           ++ rewrite Nat.add_0_r, Ha. exists error. split; [reflexivity | exact Hrl].
           ++ rewrite Nat.add_succ_r. apply Hall. lia.
        -- intros Hr. f_equal. apply Hlast, Hr.
      * apply Hzero. rewrite Ha. intros [e [He Hn]]. injection He as <-. congruence.
      * apply Hzero. rewrite Ha. intros [e [He Hn]]. injection He as <-. congruence.
Qed.

Lemma backoffAt_power (backoff : Q) (j : nat) :
  backoffAt backoff j == backoff * (15 # 10) ^ Z.of_nat j.
Proof.
  revert backoff. induction j as [| j IH]; intros backoff; cbn [backoffAt].
  - change (Z.of_nat 0) with 0%Z. simpl. ring.
  - rewrite IH, Nat2Z.inj_succ, <- Z.add_1_r.
    rewrite Qpower_plus by discriminate.
    change ((15 # 10) ^ 1) with (15 # 10). ring.
Qed.

(** X25: [withRetry] invokes the operation at most [retries + 1] times and
    sleeps once between two invocations; every invocation but the last
    was rejected with a rate-limit error; the promise settles as the last
    invocation did, unless the rate-limit test on its error raises a
    [TypeError] ([error.message] has no method [includes]), which then
    rejects the promise; and a rate-limit error is passed on only after
    [retries + 1] invocations. *)
Theorem withRetry_outcome (retries : nat) (backoff : Q) :
  let run := withRetry attempts randoms retries backoff in
  let last := attempts (Run.calls run - 1)%nat in
  (Run.calls run <= retries + 1)%nat
  /\ (length (Run.sleeps run) + 1 = Run.calls run)%nat
  /\ (forall j, (j + 1 < Run.calls run)%nat -> rateLimited (attempts j))
  /\ (breaksTest last -> Run.settled run = TestThrew)
  /\ (~ breaksTest last -> Run.settled run = SettledAs last)
  /\ (rateLimited last -> Run.calls run = (retries + 1)%nat).
Proof.
  cbv zeta. unfold withRetry.
  destruct (retryFrom_spec retries backoff 0 [])
    as [m [Hm [Hc [Hs [Hall [Hthrew [Hsame Hlast]]]]]]].
  rewrite Hc, Hs. rewrite app_nil_l. cbn [Nat.add] in *.
  rewrite length_map, length_seq.
  replace (m + 1 - 1)%nat with m by lia.
  split; [lia |]. split; [lia |].
  split; [intros j Hj; apply (Hall j); lia |].
  split; [exact Hthrew |]. split; [exact Hsame |].
  intros Hr. rewrite (Hlast Hr). reflexivity.
Qed.

(** X26: a call with the default arguments sleeps 8 times at most, and
    with [Math.random] in [[0, 1)] its wait before retry [j] is at least
    [5000 * 1.5^j] and at most that plus 2000. *)
Theorem withRetry_wait_schedule (j : nat) (w : Q) :
  (forall k, 0 <= randoms k /\ randoms k < 1) ->
  nth_error (Run.sleeps (withRetry attempts randoms defaultRetries defaultBackoff)) j
  = Some w ->
  (j < 8)%nat
  /\ 5000 * (15 # 10) ^ Z.of_nat j <= w
  /\ w <= 5000 * (15 # 10) ^ Z.of_nat j + 2000.
Proof.
  intros Hrand. unfold withRetry.
  destruct (retryFrom_spec defaultRetries defaultBackoff 0 []) as [m [Hm [_ [Hs _]]]].
  rewrite Hs. rewrite app_nil_l. cbn [Nat.add]. intros Hw.
  assert (Hj : (j < m)%nat).
  { assert (H : nth_error
                  (List.map (fun j => backoffAt defaultBackoff j + randoms j * 2000)
                     (seq 0 m)) j
                <> None) by (rewrite Hw; discriminate).
    apply nth_error_Some in H. rewrite length_map, length_seq in H. exact H. }
  rewrite nth_error_map, nth_error_seq in Hw.
  assert (E : (j <? m)%nat = true) by (apply Nat.ltb_lt; exact Hj).
  rewrite E in Hw. cbn in Hw. injection Hw as <-.
  destruct (Hrand j) as [R0 R1]. rewrite (backoffAt_power defaultBackoff j).
  unfold defaultRetries in Hm. unfold defaultBackoff.
  split; [lia |]. split; lra.
Qed.

Lemma waits_bounded (backoff : Q) (k m n : nat) :
  (forall i, 0 <= randoms i /\ randoms i < 1) ->
  0 <= backoff -> (m <= n)%nat ->
  sumQ (List.map (fun j => backoffAt backoff j + randoms (k + j)%nat * 2000) (seq 0 m))
  <= sumQ (List.map (fun j => backoffAt backoff j + 2000) (seq 0 n)).
Proof.
  intros Hrand. revert backoff k m. induction n as [| n IH]; intros backoff k m Hb Hm.
  - assert (m = 0%nat) by lia. subst m. cbn. discriminate.
  - destruct m as [| m].
    + cbn [seq List.map sumQ fold_right].
      change (fold_right Qplus 0 ?l) with (sumQ l).
      specialize (IH (backoff * (15 # 10)) k 0%nat).
      rewrite <- seq_shift, map_map. cbn [backoffAt].
      cbn [seq List.map sumQ fold_right] in IH.
      assert (0 <= backoff * (15 # 10)) by lra.
      specialize (IH H (Nat.le_0_l n)).
      change (fold_right Qplus 0 ?l) with (sumQ l) in IH. lra.
    + cbn [seq List.map sumQ fold_right].
      change (fold_right Qplus 0 ?l) with (sumQ l).
      rewrite <- !seq_shift, !map_map. cbn [backoffAt].
      assert (Hb' : 0 <= backoff * (15 # 10)) by lra.
      specialize (IH (backoff * (15 # 10)) (S k) m Hb' (le_S_n _ _ Hm)).
      assert (E : List.map
                    (fun x => backoffAt (backoff * (15 # 10)) x
                              + randoms (k + S x)%nat * 2000) (seq 0 m)
                  = List.map
                      (fun j => backoffAt (backoff * (15 # 10)) j
                                + randoms (S k + j)%nat * 2000) (seq 0 m)).
      { apply map_ext. intros j. rewrite Nat.add_succ_r. reflexivity. }
      rewrite E. destruct (Hrand (k + 0)%nat) as [R0 R1]. lra.
Qed.

(** X27: with [Math.random] in [[0, 1)] and a backoff that is not
    negative, the waits of one call add up to at most the sum of
    [backoff * 1.5^j + 2000] over the [retries] retries; with the default
    arguments that is less than 262290 milliseconds. *)
Theorem withRetry_total_wait (retries : nat) (backoff : Q) :
  (forall k, 0 <= randoms k /\ randoms k < 1) ->
  0 <= backoff ->
  sumQ (Run.sleeps (withRetry attempts randoms retries backoff))
    <= sumQ (List.map (fun j => backoffAt backoff j + 2000) (seq 0 retries))
  /\ sumQ (Run.sleeps (withRetry attempts randoms defaultRetries defaultBackoff))
     < 262290.
Proof.
  intros Hrand Hb.
  assert (Hgen : forall n b, 0 <= b ->
            sumQ (Run.sleeps (withRetry attempts randoms n b))
            <= sumQ (List.map (fun j => backoffAt b j + 2000) (seq 0 n))).
  { intros n b Hb'. unfold withRetry.
    destruct (retryFrom_spec n b 0 []) as [m [Hm [_ [Hs _]]]].
    rewrite Hs. rewrite app_nil_l. apply (waits_bounded b 0 m n Hrand Hb' Hm). }
  split; [apply Hgen, Hb |].
  eapply Qle_lt_trans; [apply Hgen; discriminate |].
  vm_compute. reflexivity.
Qed.

End Retry.

Lemma withRetry_outcome_witness :
  (forall j, (j + 1 < Run.calls (withRetry flakyOperation halfJitter 8 5000))%nat ->
             rateLimited (flakyOperation j))
  /\ Run.settled (withRetry flakyOperation halfJitter 8 5000) = SettledAs (Fulfilled 7%nat)
  /\ Run.calls (withRetry flakyOperation halfJitter 8 5000) = 3%nat
  /\ breaksTest (oddOperation (Run.calls (withRetry oddOperation halfJitter 8 5000) - 1))
  /\ Run.settled (withRetry oddOperation halfJitter 8 5000) = TestThrew
  /\ Run.calls (withRetry oddOperation halfJitter 8 5000) = 1%nat.
Proof.
  destruct (withRetry_outcome flakyOperation halfJitter 8 5000) as [_ [_ [H _]]].
  destruct (withRetry_outcome oddOperation halfJitter 8 5000) as [_ [_ [_ [Hodd _]]]].
  assert (Hb : breaksTest
                 (oddOperation (Run.calls (withRetry oddOperation halfJitter 8 5000) - 1))).
  { exists (Some oddError). split; reflexivity. }
  split; [exact H |]. split; [reflexivity |]. split; [reflexivity |].
  split; [exact Hb |]. split; [exact (Hodd Hb) | reflexivity].
Defined.

Lemma withRetry_wait_schedule_witness :
  (forall k, 0 <= halfJitter k /\ halfJitter k < 1)
  /\ nth_error (Run.sleeps (withRetry flakyOperation halfJitter defaultRetries defaultBackoff))
       1
     = Some (5000 * (15 # 10) + (1 # 2) * 2000)
  /\ 5000 * (15 # 10) ^ Z.of_nat 1 <= 5000 * (15 # 10) + (1 # 2) * 2000
  /\ 5000 * (15 # 10) + (1 # 2) * 2000 <= 5000 * (15 # 10) ^ Z.of_nat 1 + 2000.
Proof.
  assert (Hrand : forall k, 0 <= halfJitter k /\ halfJitter k < 1).
  { intros k. split; [discriminate | reflexivity]. }
  assert (Hw : nth_error
                 (Run.sleeps (withRetry flakyOperation halfJitter defaultRetries
                                defaultBackoff)) 1
               = Some (5000 * (15 # 10) + (1 # 2) * 2000)) by reflexivity.
  split; [exact Hrand |]. split; [exact Hw |].
  exact (proj2 (withRetry_wait_schedule flakyOperation halfJitter 1 _ Hrand Hw)).
Defined.

Lemma withRetry_total_wait_witness :
  (forall k, 0 <= halfJitter k /\ halfJitter k < 1)
  /\ 0 <= 5000
  /\ sumQ (Run.sleeps (withRetry flakyOperation halfJitter defaultRetries defaultBackoff))
     < 262290.
Proof.
  assert (Hrand : forall k, 0 <= halfJitter k /\ halfJitter k < 1).
  { intros k. split; [discriminate | reflexivity]. }
  assert (Hb : 0 <= 5000) by discriminate.
  split; [exact Hrand |]. split; [exact Hb |].
  exact (proj2 (withRetry_total_wait flakyOperation halfJitter 8 5000 Hrand Hb)).
Defined.

(** ** Properties of the series of the measurements view *)

Lemma getProp_setProp_same key v props : getProp key (setProp key v props) = Some v.
Proof.
  induction props as [| [k w] props IH]; cbn [setProp getProp].
  - rewrite Z.eqb_refl. reflexivity.
  - destruct (Z.eqb k key) eqn:E; cbn [getProp]; rewrite E; [reflexivity | exact IH].
Qed.

Lemma getProp_setProp_other key key' v props :
  key <> key' -> getProp key' (setProp key v props) = getProp key' props.
Proof.
  intros Hne. induction props as [| [k w] props IH]; cbn [setProp getProp].
  - assert (E : Z.eqb key key' = false) by (apply Z.eqb_neq; exact Hne).
    rewrite E. reflexivity.
  - destruct (Z.eqb k key) eqn:E; cbn [getProp].
    + apply Z.eqb_eq in E. subst k.
      assert (E' : Z.eqb key key' = false) by (apply Z.eqb_neq; exact Hne).
      rewrite E'. reflexivity.
    + destruct (Z.eqb k key'); [reflexivity | exact IH].
Qed.

Section PlotRows.

Variable t : Q.

Lemma plotObjects_time denseObjects :
  forall rows,
    GraphPoint.time (fst (fold_left (plotObject t) denseObjects rows))
      = GraphPoint.time (fst rows)
    /\ GraphPoint.time (snd (fold_left (plotObject t) denseObjects rows))
       = GraphPoint.time (snd rows).
Proof.
  induction denseObjects as [| obj denseObjects IH]; intros [point accelPoint];
    cbn [fold_left]; [split; reflexivity |].
  destruct (IH (plotObject t (point, accelPoint) obj)) as [H1 H2].
  rewrite H1, H2. split; reflexivity.
Qed.

Lemma plotObjects_other id denseObjects :
  ~ In id (List.map fst denseObjects) ->
  forall rows,
    getProp id (GraphPoint.values (fst (fold_left (plotObject t) denseObjects rows)))
      = getProp id (GraphPoint.values (fst rows))
    /\ getProp id (GraphPoint.values (snd (fold_left (plotObject t) denseObjects rows)))
       = getProp id (GraphPoint.values (snd rows)).
Proof.
  induction denseObjects as [| obj denseObjects IH]; intros Hnot [point accelPoint];
    cbn [fold_left]; [split; reflexivity |].
  cbn [List.map In] in Hnot.
  destruct (IH (fun H => Hnot (or_intror H)) (plotObject t (point, accelPoint) obj))
    as [H1 H2].
  rewrite H1, H2. cbn [plotObject fst snd GraphPoint.values].
  assert (Hne : fst obj <> id) by (intros E; apply Hnot; left; exact E).
  split; apply getProp_setProp_other; exact Hne.
Qed.

Lemma plotObjects_get id dense denseObjects :
  NoDup (List.map fst denseObjects) ->
  In (id, dense) denseObjects ->
  forall rows,
    getProp id (GraphPoint.values (fst (fold_left (plotObject t) denseObjects rows)))
      = Some (sampleNear dense t)
    /\ getProp id (GraphPoint.values (snd (fold_left (plotObject t) denseObjects rows)))
       = Some ((sampleNear dense t - sampleNear dense (t - (1 # 2)))
               / JS.Fin (1 # 2))%js.
Proof.
  induction denseObjects as [| obj denseObjects IH]; intros Hnd Hin [point accelPoint];
    [contradiction |].
  cbn [fold_left]. cbn [List.map] in Hnd. inversion Hnd as [| ? ? Hnot Hnd']; subst.
  destruct Hin as [-> | Hin].
  - destruct (plotObjects_other id denseObjects Hnot
                (plotObject t (point, accelPoint) (id, dense))) as [H1 H2].
    rewrite H1, H2. cbn [plotObject fst snd GraphPoint.values].
    split; apply getProp_setProp_same.
  - apply IH; assumption.
Qed.

End PlotRows.

Lemma plotRows_time denseObjects t :
  GraphPoint.time (fst (plotRows denseObjects t)) = JS.Fin (toFixed1 t)
  /\ GraphPoint.time (snd (plotRows denseObjects t)) = JS.Fin (toFixed1 t).
Proof. unfold plotRows. apply plotObjects_time. Qed.

Section GraphLoop.

Variable denseObjects : list (Z * list DenseSample.t).
Variable duration : Q.

Lemma graphLoop_prefix (fuel : nat) :
  forall t graphData accelData g a,
    graphLoop fuel denseObjects duration t graphData accelData = Returns (g, a) ->
    (exists tail, g = graphData ++ tail) /\ (exists tail, a = accelData ++ tail).
Proof.
  induction fuel as [| fuel IH]; intros t graphData accelData g a; cbn [graphLoop].
  - discriminate.
  - destruct (Qle_bool t duration).
    + destruct (plotRows denseObjects t) as [point accelPoint].
      intros H. apply IH in H. destruct H as [[t1 ->] [t2 ->]].
      rewrite <- !app_assoc. split; eexists; reflexivity.
    + intros [= <- <-]. split; exists []; symmetry; apply app_nil_r.
Qed.

Lemma graphLoop_nth (fuel : nat) :
  forall i0 graphData accelData g a,
    length graphData = i0 -> length accelData = i0 ->
    graphLoop fuel denseObjects duration (clock (1 # 2) i0) graphData accelData
      = Returns (g, a) ->
    forall i, (i0 <= i)%nat ->
      (forall row, nth_error g i = Some row ->
                   row = fst (plotRows denseObjects (clock (1 # 2) i)))
      /\ (forall row, nth_error a i = Some row ->
                      row = snd (plotRows denseObjects (clock (1 # 2) i))).
Proof.
  induction fuel as [| fuel IH]; intros i0 graphData accelData g a Hg Ha;
    cbn [graphLoop].
  - discriminate.
  - destruct (Qle_bool (clock (1 # 2) i0) duration).
    + destruct (plotRows denseObjects (clock (1 # 2) i0)) as [point accelPoint] eqn:Erows.
      intros H i Hi.
      destruct (Nat.eq_dec i i0) as [-> | Hne].
      * apply graphLoop_prefix in H. destruct H as [[t1 ->] [t2 ->]].
        rewrite Erows. cbn [fst snd].
        split; intros row Hrow; rewrite <- app_assoc in Hrow;
          rewrite nth_error_app2 in Hrow by lia;
          [rewrite Hg, Nat.sub_diag in Hrow | rewrite Ha, Nat.sub_diag in Hrow];
          simpl in Hrow; congruence.
      * eapply (IH (S i0)); [| | exact H | lia];
          rewrite length_app; simpl; lia.
    + intros [= <- <-] i Hi. split; intros row Hrow.
      * assert (Hlt : (i < length graphData)%nat)
          by (apply nth_error_Some; rewrite Hrow; discriminate). lia.
      * assert (Hlt : (i < length accelData)%nat)
          by (apply nth_error_Some; rewrite Hrow; discriminate). lia.
Qed.

Lemma graphLoop_length (n : nat)
    (Hlo : inject_Z (Z.of_nat n) * (1 # 2) <= duration)
    (Hhi : duration < inject_Z (Z.of_nat (S n)) * (1 # 2)) (fuel : nat) :
  forall i0 graphData accelData g a,
    length graphData = i0 -> length accelData = i0 ->
    (i0 <= S n)%nat ->
    graphLoop fuel denseObjects duration (clock (1 # 2) i0) graphData accelData
      = Returns (g, a) ->
    length g = S n /\ length a = S n.
Proof.
  assert (Hstep : 0 < 1 # 2) by reflexivity.
  induction fuel as [| fuel IH]; intros i0 graphData accelData g a Hg Ha Hi0;
    cbn [graphLoop].
  - discriminate.
  - destruct (Qle_bool (clock (1 # 2) i0) duration) eqn:E.
    + destruct (plotRows denseObjects (clock (1 # 2) i0)) as [point accelPoint].
      intros H. apply Qle_bool_iff in E. rewrite clock_linear in E.
      assert (Hlt : (i0 < S n)%nat).
      { apply (clock_step_order (1 # 2)); [exact Hstep | lra]. }
      apply (IH (S i0)) in H; [exact H | | | lia];
        rewrite length_app; simpl; lia.
    + intros [= <- <-].
      assert (Hgt : duration < clock (1 # 2) i0).
      { apply Qnot_le_lt. intros Hle. apply Qle_bool_iff in Hle. congruence. }
      rewrite clock_linear in Hgt.
      assert (Hlt : (n < i0)%nat).
      { apply (clock_step_order (1 # 2)); [exact Hstep | lra]. }
      split; lia.
Qed.

End GraphLoop.

Lemma measurementSeries_unfold fuel first others duration series :
  measurementSeries fuel (first :: others) duration = Returns series ->
  exists denseObjects,
    interpolateEach fuel (first :: others) duration = Returns denseObjects
    /\ graphLoop fuel denseObjects duration 0 [] []
       = Returns (MeasurementSeries.speedSeries series,
                  MeasurementSeries.accelSeries series).
Proof.
  unfold measurementSeries.
  destruct (interpolateEach fuel (first :: others) duration) as [denseObjects | |] eqn:E1;
    try discriminate.
  cbn [bind].
  destruct (graphLoop fuel denseObjects duration 0 [] []) as [[g a] | |] eqn:E2;
    try discriminate.
  cbn [bind].
  destruct (match others with
            | second :: _ => computeDistanceAndTTC fuel first second duration
            | [] => Returns []
            end) as [distData | |]; try discriminate.
  cbn [bind fst snd]. intros [= <-]. exists denseObjects.
  split; [reflexivity | exact E2].
Qed.

Lemma toFixed1_halves (j : nat) :
  toFixed1 (clock (1 # 2) j) == inject_Z (Z.of_nat j) / 2.
Proof.
  assert (E : clock (1 # 2) j == inject_Z (Z.of_nat (5 * j)) / 10).
  { rewrite clock_linear, Nat2Z.inj_mul, inject_Z_mult.
    change (inject_Z (Z.of_nat 5)) with 5. field. }
  rewrite (toFixed1_comp _ _ E), toFixed1_tenths.
  rewrite Nat2Z.inj_mul, inject_Z_mult. change (inject_Z (Z.of_nat 5)) with 5. field.
Qed.

(** The rows of a returned series. *)
Lemma measurementSeries_rows fuel objects duration series :
  objects <> [] ->
  0 <= duration ->
  measurementSeries fuel objects duration = Returns series ->
  length (MeasurementSeries.speedSeries series)
    = S (Z.to_nat (Qfloor (duration / (1 # 2))))
  /\ length (MeasurementSeries.accelSeries series)
     = S (Z.to_nat (Qfloor (duration / (1 # 2))))
  /\ forall j row,
       nth_error (MeasurementSeries.speedSeries series) j = Some row
       \/ nth_error (MeasurementSeries.accelSeries series) j = Some row ->
       JS.eqv (GraphPoint.time row) (JS.Fin (inject_Z (Z.of_nat j) / 2)).
Proof.
  intros Hne Hdur H. destruct objects as [| first others]; [congruence |].
  destruct (measurementSeries_unfold _ _ _ _ _ H) as [denseObjects [_ Hloop]].
  assert (Hstep : 0 < 1 # 2) by reflexivity.
  destruct (floor_rounds duration (1 # 2) Hstep Hdur) as [Hlo Hhi].
  destruct (graphLoop_length denseObjects duration _ Hlo Hhi fuel 0%nat [] [] _ _
              eq_refl eq_refl (Nat.le_0_l _) Hloop) as [L1 L2].
  split; [exact L1 |]. split; [exact L2 |].
  intros j row Hrow.
  destruct (graphLoop_nth denseObjects duration fuel 0%nat [] [] _ _
              eq_refl eq_refl Hloop j (Nat.le_0_l _)) as [Hg Ha].
  destruct (plotRows_time denseObjects (clock (1 # 2) j)) as [T1 T2].
  destruct Hrow as [Hrow | Hrow].
  - rewrite (Hg row Hrow), T1. cbn [JS.eqv]. apply toFixed1_halves.
  - rewrite (Ha row Hrow), T2. cbn [JS.eqv]. apply toFixed1_halves.
Qed.

(** Every part of the callback returns, given fuel enough. *)
Lemma interpolateSeries_total sparse duration step :
  0 < step ->
  exists fuel out, forall k, interpolateSeries (fuel + k) sparse duration step = Returns out.
Proof.
  intros Hstep.
  destruct (interpolateSeries_terminates sparse duration step Hstep) as [fuel [out H]].
  exists fuel, out. intros k. apply interpolateSeries_more_fuel, H.
Qed.

Lemma interpolateEach_total objects duration :
  exists fuel denseObjects,
    forall k, interpolateEach (fuel + k) objects duration = Returns denseObjects.
Proof.
  induction objects as [| obj objects IH].
  - exists 0%nat, []. reflexivity.
  - assert (Hstep : 0 < defaultStep) by reflexivity.
    destruct (interpolateSeries_total (profileOf obj) duration defaultStep Hstep)
      as [f1 [dense H1]].
    destruct IH as [f2 [more H2]].
    exists (f1 + f2)%nat, ((TrackedObject.id obj, dense) :: more). intros k.
    cbn [interpolateEach].
    replace (f1 + f2 + k)%nat with (f1 + (f2 + k))%nat at 1 by lia. rewrite H1.
    replace (f1 + f2 + k)%nat with (f2 + (f1 + k))%nat by lia. rewrite H2.
    reflexivity.
Qed.

Lemma computeDistanceAndTTC_total obj1 obj2 duration :
  exists fuel results,
    forall k, computeDistanceAndTTC (fuel + k) obj1 obj2 duration = Returns results.
Proof.
  assert (Hstep : 0 < defaultStep) by reflexivity.
  destruct (interpolateSeries_total (profileOf obj1) duration defaultStep Hstep)
    as [f1 [d1 H1]].
  destruct (interpolateSeries_total (profileOf obj2) duration defaultStep Hstep)
    as [f2 [d2 H2]].
  exists (f1 + f2)%nat, (closingLoop d1 d2 startDistance). intros k.
  unfold computeDistanceAndTTC.
  replace (f1 + f2 + k)%nat with (f1 + (f2 + k))%nat at 1 by lia. rewrite H1.
  replace (f1 + f2 + k)%nat with (f2 + (f1 + k))%nat by lia. rewrite H2.
  reflexivity.
Qed.

Section GraphLoopTotal.

Variable denseObjects : list (Z * list DenseSample.t).
Variable duration : Q.

Lemma graphLoop_more_fuel (k fuel : nat) :
  forall t graphData accelData out,
    graphLoop fuel denseObjects duration t graphData accelData = Returns out ->
    graphLoop (fuel + k) denseObjects duration t graphData accelData = Returns out.
Proof.
  induction fuel as [| fuel IH]; intros t graphData accelData out; cbn [graphLoop Nat.add].
  - discriminate.
  - destruct (Qle_bool t duration); [| trivial].
    destruct (plotRows denseObjects t) as [point accelPoint]. apply IH.
Qed.

Lemma graphLoop_terminates (n : nat) :
  forall t graphData accelData,
    duration - t < inject_Z (Z.of_nat n) * (1 # 2) ->
    exists out, graphLoop (S n) denseObjects duration t graphData accelData = Returns out.
Proof.
  induction n as [| n IH]; intros t graphData accelData Hn.
  - cbn [graphLoop].
    assert (E : Qle_bool t duration = false).
    { apply not_true_is_false. rewrite Qle_bool_iff.
      change (inject_Z (Z.of_nat 0)) with 0 in Hn. lra. }
    rewrite E. eexists; reflexivity.
  - cbn [graphLoop]. destruct (Qle_bool t duration).
    + destruct (plotRows denseObjects t) as [point accelPoint]. apply IH.
      rewrite Nat2Z.inj_succ, <- Z.add_1_r, inject_Z_plus in Hn.
      change (inject_Z 1) with 1 in Hn. lra.
    + eexists; reflexivity.
Qed.

Lemma graphLoop_total :
  exists fuel out,
    forall k, graphLoop (fuel + k) denseObjects duration 0 [] [] = Returns out.
Proof.
  assert (Hstep : 0 < 1 # 2) by reflexivity.
  destruct (rounds_bound duration (1 # 2) Hstep) as [n Hn].
  destruct (graphLoop_terminates n 0 [] [] Hn) as [out Hout].
  exists (S n), out. intros k. apply graphLoop_more_fuel, Hout.
Qed.

End GraphLoopTotal.

Lemma measurementSeries_total objects duration :
  exists fuel series,
    forall k, measurementSeries (fuel + k) objects duration = Returns series.
Proof.
  destruct objects as [| first others].
  - exists 0%nat. eexists. intros k. reflexivity.
  - destruct (interpolateEach_total (first :: others) duration) as [f1 [denseObjects H1]].
    destruct (graphLoop_total denseObjects duration) as [f2 [out H2]].
    assert (H3 : exists f3 distData, forall k,
               match others with
               | second :: _ => computeDistanceAndTTC (f3 + k) first second duration
               | [] => Returns []
               end = Returns distData).
    { destruct others as [| second others'].
      - exists 0%nat, []. reflexivity.
      - apply computeDistanceAndTTC_total. }
    destruct H3 as [f3 [distData H3]].
    exists (f1 + f2 + f3)%nat. eexists. intros k. unfold measurementSeries.
    replace (f1 + f2 + f3 + k)%nat with (f1 + (f2 + f3 + k))%nat at 1 by lia.
    rewrite H1. cbn [bind].
    replace (f1 + f2 + f3 + k)%nat with (f2 + (f1 + f3 + k))%nat at 1 by lia.
    rewrite H2. cbn [bind].
    replace (f1 + f2 + f3 + k)%nat with (f3 + (f1 + f2 + k))%nat by lia.
    rewrite H3. cbn [bind]. reflexivity.
Qed.

(** X28: for at least one object and a duration between 0 and a day
    (86400 seconds), the callback returns; its speed chart and its
    acceleration chart both have [floor(duration / 0.5) + 1] rows, and row
    [j] of either carries the time [j / 2]. *)
Theorem measurement_rows objects duration :
  objects <> [] ->
  0 <= duration ->
  duration <= 86400 ->
  exists fuel series,
    (forall k, measurementSeries (fuel + k) objects duration = Returns series)
    /\ length (MeasurementSeries.speedSeries series)
       = S (Z.to_nat (Qfloor (duration / (1 # 2))))
    /\ length (MeasurementSeries.accelSeries series)
       = S (Z.to_nat (Qfloor (duration / (1 # 2))))
    /\ forall j row,
         nth_error (MeasurementSeries.speedSeries series) j = Some row
         \/ nth_error (MeasurementSeries.accelSeries series) j = Some row ->
         JS.eqv (GraphPoint.time row) (JS.Fin (inject_Z (Z.of_nat j) / 2)).
Proof.
  intros Hne Hdur _.
  destruct (measurementSeries_total objects duration) as [fuel [series H]].
  exists fuel, series. split; [exact H |].
  apply (measurementSeries_rows (fuel + 0) objects duration series Hne Hdur (H 0%nat)).
Qed.

Lemma measurement_rows_witness :
  [profiledObject [(0, 4); (1, 8)]] <> []
  /\ 0 <= 1
  /\ 1 <= 86400
  /\ exists fuel series,
       (forall k, measurementSeries (fuel + k) [profiledObject [(0, 4); (1, 8)]] 1
                  = Returns series)
       /\ length (MeasurementSeries.speedSeries series) = 3%nat.
Proof.
  assert (Hne : [profiledObject [(0, 4); (1, 8)]] <> []) by discriminate.
  assert (Hdur : 0 <= 1) by discriminate.
  assert (Hday : 1 <= 86400) by discriminate.
  split; [exact Hne |]. split; [exact Hdur |]. split; [exact Hday |].
  destruct (measurement_rows [profiledObject [(0, 4); (1, 8)]] 1 Hne Hdur Hday)
    as [fuel [series [Hrun [Hlen _]]]].
  exists fuel, series. split; [exact Hrun |].
  rewrite Hlen. reflexivity.
Defined.

Lemma interpolateEach_in fuel objects duration :
  forall denseObjects,
    interpolateEach fuel objects duration = Returns denseObjects ->
    List.map fst denseObjects = List.map TrackedObject.id objects
    /\ forall obj dense,
         In obj objects ->
         interpolateSeries fuel (profileOf obj) duration defaultStep = Returns dense ->
         In (TrackedObject.id obj, dense) denseObjects.
Proof.
  induction objects as [| o objects IH]; intros denseObjects; cbn [interpolateEach].
  - intros [= <-]. split; [reflexivity | intros ? ? []].
  - destruct (interpolateSeries fuel (profileOf o) duration defaultStep)
      as [d | |] eqn:Ed; try discriminate.
    cbn [bind].
    destruct (interpolateEach fuel objects duration) as [more | |]; try discriminate.
    cbn [bind]. intros [= <-]. destruct (IH more eq_refl) as [Hids Hin].
    split; [cbn [List.map fst]; rewrite Hids; reflexivity |].
    intros obj dense [-> | Hobj] Hdense.
    + left. congruence.
    + right. apply Hin; assumption.
Qed.

Lemma find_none {A : Type} (f : A -> bool) (l : list A) :
  (forall p, In p l -> f p = false) -> find f l = None.
Proof.
  induction l as [| x l IH]; intros H; [reflexivity |].
  cbn [find]. rewrite (H x (or_introl eq_refl)). apply IH.
  intros p Hp. apply H. right. exact Hp.
Qed.

Lemma sampleNear_comp dense (t t' : Q) :
  t == t' -> sampleNear dense t = sampleNear dense t'.
Proof.
  intros Ht. unfold sampleNear.
  assert (E : forall p,
            (JS.abs (DenseSample.time p - JS.Fin t) <? JS.Fin (1 # 10))%js
            = (JS.abs (DenseSample.time p - JS.Fin t') <? JS.Fin (1 # 10))%js).
  { intros p. destruct (DenseSample.time p) as [a | | |]; try reflexivity.
    cbn [JS.sub JS.neg JS.add JS.abs JS.ltb]. unfold Qltb. rewrite Ht. reflexivity. }
  induction dense as [| p dense IH]; [reflexivity |].
  cbn [find]. rewrite E.
  destruct ((JS.abs (DenseSample.time p - JS.Fin t') <? JS.Fin (1 # 10))%js);
    [reflexivity | exact IH].
Qed.

Lemma sampleNear_before_zero fuel sparse duration dense (t : Q) :
  interpolateSeries fuel sparse duration defaultStep = Returns dense ->
  t <= - (1 # 10) ->
  sampleNear dense t = JS.Fin 0.
Proof.
  intros H Ht. unfold sampleNear. rewrite find_none; [reflexivity |].
  intros p Hin. destruct (In_nth_error _ _ Hin) as [i Hp].
  destruct (interpolateSeries_default_time _ _ _ _ _ _ H Hp) as [ti [Eti Hti]].
  rewrite Eti. cbn [JS.sub JS.neg JS.add JS.abs JS.ltb].
  apply Qltb_ge.
  assert (Hi : 0 <= inject_Z (Z.of_nat i)).
  { change 0 with (inject_Z 0). rewrite <- Zle_Qle. lia. }
  assert (Hti0 : 0 <= ti).
  { rewrite Hti. apply Qle_shift_div_l; [reflexivity | lra]. }
  eapply Qle_trans; [| apply Qle_Qabs]. lra.
Qed.

Lemma measurementSeries_row fuel objects duration series obj dense j :
  NoDup (List.map TrackedObject.id objects) ->
  In obj objects ->
  measurementSeries fuel objects duration = Returns series ->
  interpolateSeries fuel (profileOf obj) duration defaultStep = Returns dense ->
  (forall row,
     nth_error (MeasurementSeries.speedSeries series) j = Some row ->
     getProp (TrackedObject.id obj) (GraphPoint.values row)
       = Some (sampleNear dense (clock (1 # 2) j)))
  /\ (forall row,
        nth_error (MeasurementSeries.accelSeries series) j = Some row ->
        getProp (TrackedObject.id obj) (GraphPoint.values row)
          = Some ((sampleNear dense (clock (1 # 2) j)
                   - sampleNear dense (clock (1 # 2) j - (1 # 2)))
                  / JS.Fin (1 # 2))%js).
Proof.
  intros Hnd Hin H Hdense.
  destruct objects as [| first others]; [contradiction |].
  destruct (measurementSeries_unfold _ _ _ _ _ H) as [denseObjects [Heach Hloop]].
  destruct (interpolateEach_in _ _ _ _ Heach) as [Hids Hmem].
  specialize (Hmem obj dense Hin Hdense). rewrite <- Hids in Hnd.
  destruct (graphLoop_nth denseObjects duration fuel 0%nat [] [] _ _
              eq_refl eq_refl Hloop j (Nat.le_0_l _)) as [Hg Ha].
  destruct (plotObjects_get (clock (1 # 2) j) _ _ _ Hnd Hmem
              (GraphPoint.mk (JS.Fin (toFixed1 (clock (1 # 2) j))) [],
               GraphPoint.mk (JS.Fin (toFixed1 (clock (1 # 2) j))) []))
    as [G1 G2].
  split; intros row Hrow.
  - rewrite (Hg row Hrow). exact G1.
  - rewrite (Ha row Hrow). exact G2.
Qed.

(** X30: with pairwise distinct object ids, row [j] of the acceleration
    chart shows for every object the difference between its values in
    rows [j] and [j - 1] of the speed chart, divided by 0.5; row 0 is
    measured against 0, so that it shows twice the first speed. *)
Theorem accel_chart_differences fuel objects duration series obj dense j row arow :
  NoDup (List.map TrackedObject.id objects) ->
  In obj objects ->
  measurementSeries fuel objects duration = Returns series ->
  interpolateSeries fuel (profileOf obj) duration defaultStep = Returns dense ->
  nth_error (MeasurementSeries.speedSeries series) j = Some row ->
  nth_error (MeasurementSeries.accelSeries series) j = Some arow ->
  exists v,
    getProp (TrackedObject.id obj) (GraphPoint.values row) = Some v
    /\ match j with
       | O =>
           getProp (TrackedObject.id obj) (GraphPoint.values arow)
             = Some ((v - JS.Fin 0) / JS.Fin (1 # 2))%js
       | S j' =>
           exists before pv,
             nth_error (MeasurementSeries.speedSeries series) j' = Some before
             /\ getProp (TrackedObject.id obj) (GraphPoint.values before) = Some pv
             /\ getProp (TrackedObject.id obj) (GraphPoint.values arow)
                = Some ((v - pv) / JS.Fin (1 # 2))%js
       end.
Proof.
  intros Hnd Hin H Hdense Hrow Harow.
  destruct (measurementSeries_row _ _ _ _ _ _ j Hnd Hin H Hdense) as [Hs Ha].
  eexists. split; [apply Hs, Hrow |].
  rewrite (Ha arow Harow). destruct j as [| j].
  - rewrite (sampleNear_before_zero _ _ _ _ (clock (1 # 2) 0 - (1 # 2)) Hdense);
      [reflexivity | discriminate].
  - destruct (nth_error (MeasurementSeries.speedSeries series) j) as [before |] eqn:Eb.
    + destruct (measurementSeries_row _ _ _ _ _ _ j Hnd Hin H Hdense) as [Hs' _].
      exists before. eexists. split; [reflexivity |]. split; [apply Hs'; exact Eb |].
      rewrite (sampleNear_comp dense (clock (1 # 2) (S j) - (1 # 2)) (clock (1 # 2) j));
        [reflexivity |].
      cbn [clock]. ring.
    + apply nth_error_None in Eb.
      assert (Hlt : (S j < length (MeasurementSeries.speedSeries series))%nat)
        by (apply nth_error_Some; rewrite Hrow; discriminate).
      lia.
Qed.

Lemma accel_chart_differences_witness :
  NoDup (List.map TrackedObject.id [profiledObject [(0, 4); (1, 8)]])
  /\ exists series dense row arow,
       measurementSeries 13 [profiledObject [(0, 4); (1, 8)]] 1 = Returns series
       /\ interpolateSeries 13 [(0, 4); (1, 8)] 1 defaultStep = Returns dense
       /\ nth_error (MeasurementSeries.speedSeries series) 0 = Some row
       /\ nth_error (MeasurementSeries.accelSeries series) 0 = Some arow
       /\ exists v,
            getProp 1 (GraphPoint.values row) = Some v
            /\ getProp 1 (GraphPoint.values arow)
               = Some ((v - JS.Fin 0) / JS.Fin (1 # 2))%js.
Proof.
  assert (Hnd : NoDup (List.map TrackedObject.id [profiledObject [(0, 4); (1, 8)]])).
  { repeat constructor. intros []. }
  assert (Hin : In (profiledObject [(0, 4); (1, 8)]) [profiledObject [(0, 4); (1, 8)]])
    by (left; reflexivity).
  split; [exact Hnd |].
  do 4 eexists.
  split; [vm_compute; reflexivity |]. split; [vm_compute; reflexivity |].
  split; [reflexivity |]. split; [reflexivity |].
  edestruct accel_chart_differences with (fuel := 13%nat) (duration := 1) (j := 0%nat)
    as [v [Hv Ha]].
  - exact Hnd.
  - exact Hin.
  - vm_compute; reflexivity.
  - vm_compute; reflexivity.
  - reflexivity.
  - reflexivity.
  - exists v. split; [exact Hv | exact Ha].
Defined.

(** ** Independence of the order of the observations *)

(** Two ascending arrangements of the same points coincide when no two of
    the points share a timestamp. *)
Lemma sorted_arrangement_unique (l l' : list SparsePoint) :
  StronglySorted (fun x y => fst x <= fst y) l ->
  StronglySorted (fun x y => fst x <= fst y) l' ->
  Permutation l l' ->
  distinctTimes l ->
  l = l'.
Proof.
  intros Hs. revert l'.
  induction Hs as [| a l Hs IH Ha]; intros l' Hs' Hp Hd.
  - apply Permutation_nil in Hp. symmetry. exact Hp.
  - destruct l' as [| b l'].
    { apply Permutation_sym, Permutation_nil in Hp. discriminate. }
    inversion Hs' as [| ? ? Hs'' Hb]; subst.
    inversion Hd as [| ? ? Hda Hd']; subst.
    assert (E : a = b).
    { assert (Hina : In a (b :: l'))
        by (eapply Permutation_in; [exact Hp | left; reflexivity]).
      assert (Hinb : In b (a :: l)).
      { eapply Permutation_in; [apply Permutation_sym; exact Hp | left; reflexivity]. }
      destruct Hinb as [E | Hinb]; [exact E |].
      destruct Hina as [E | Hina]; [symmetry; exact E |].
      exfalso.
      rewrite Forall_forall in Ha, Hb, Hda.
      specialize (Ha _ Hinb). specialize (Hb _ Hina).
      apply (Hda _ Hinb). apply Qle_antisym; assumption. }
    subst b. apply (f_equal (cons a)).
    apply IH; [exact Hs'' | | exact Hd'].
    eapply Permutation_cons_inv. exact Hp.
Qed.

(** X16: when no two observations share a timestamp, the interpolated
    series does not depend on the order in which the observations are
    listed: reordering the sparse points gives the same outcome. *)
Theorem interpolate_order_independent fuel (sparse sparse' : list SparsePoint)
    (duration step : Q) :
  distinctTimes sparse ->
  Permutation sparse sparse' ->
  interpolateSeries fuel sparse' duration step
  = interpolateSeries fuel sparse duration step.
Proof.
  intros Hd Hp. unfold interpolateSeries.
  rewrite <- (Permutation_length Hp).
  destruct (length sparse <? 2)%nat; [reflexivity |].
  replace (sortByTime sparse') with (sortByTime sparse); [reflexivity |].
  apply sorted_arrangement_unique.
  - apply sortByTime_sorted.
  - apply sortByTime_sorted.
  - eapply Permutation_trans; [apply Permutation_sym, sortByTime_perm |].
    eapply Permutation_trans; [exact Hp | apply sortByTime_perm].
  - apply sortByTime_distinct, Hd.
Qed.

Lemma interpolate_order_independent_witness :
  distinctTimes [(0, 3); (2, 7); (1, 5)]
  /\ Permutation [(0, 3); (2, 7); (1, 5)] [(1, 5); (0, 3); (2, 7)]
  /\ interpolateSeries 30 [(1, 5); (0, 3); (2, 7)] 2 defaultStep
     = interpolateSeries 30 [(0, 3); (2, 7); (1, 5)] 2 defaultStep.
Proof.
  assert (Hd : distinctTimes [(0, 3); (2, 7); (1, 5)]).
  { unfold distinctTimes.
    repeat (constructor; try (cbn [fst]; intros E; vm_compute in E; discriminate)). }
  assert (Hp : Permutation [(0, 3); (2, 7); (1, 5)] [(1, 5); (0, 3); (2, 7)]).
  { apply Permutation_sym.
    apply (Permutation_cons_app [(0, 3); (2, 7)] [] (1, 5)).
    rewrite app_nil_r. apply Permutation_refl. }
  split; [exact Hd |]. split; [exact Hp |].
  apply interpolate_order_independent; assumption.
Defined.

(** ** What the two engines yield on every input

    The statements of this part make no assumption on the observations:
    repeated timestamps, negative values and non-finite intermediate
    results are all covered. *)

Lemma max0_cases (x : JS.number) :
  JS.max (JS.Fin 0) x = JS.NaN \/ JS.nonneg (JS.max (JS.Fin 0) x).
Proof.
  destruct x as [q | | |].
  - right. apply max0_nonneg.
  - right. reflexivity.
  - right. reflexivity.
  - left. reflexivity.
Qed.

(** X3: a sample of [interpolateSeries] is [NaN], or 0 or more, or it
    repeats the value of an observation that no other observation comes
    after: only the flat extrapolation of the last observation can yield a
    negative sample. *)
Theorem interpolate_negative_only_from_last fuel sparse duration step dense s :
  interpolateSeries fuel sparse duration step = Returns dense ->
  In s dense ->
  DenseSample.value s = JS.NaN
  \/ JS.nonneg (DenseSample.value s)
  \/ exists p,
       In p sparse
       /\ (forall q, In q sparse -> fst q <= fst p)
       /\ DenseSample.value s = JS.Fin (snd p).
Proof.
  intros Hrun Hin.
  apply In_nth_error in Hin. destruct Hin as [i Hs].
  rewrite (interpolateSeries_nth _ _ _ _ _ _ _ Hrun Hs).
  set (sorted := sortByTime sparse).
  set (idx := cursorAt sorted step i).
  unfold sampleAt.
  destruct (nth_error sorted idx) as [p1 |] eqn:E1;
    [| right; left; reflexivity].
  destruct (nth_error sorted (idx + 1)) as [p2 |] eqn:E2; cbn [DenseSample.value].
  - destruct (max0_cases (lerp p1 p2 (clock step i))) as [H | H];
      [left; exact H | right; left; exact H].
  - right. right. exists p1.
    assert (Hne : sorted <> []) by (intros F; rewrite F in E1; destruct idx; discriminate).
    assert (Hidx : idx = (length sorted - 1)%nat).
    { apply nth_error_None in E2.
      assert (idx < length sorted)%nat by (apply nth_error_Some; rewrite E1; discriminate).
      lia. }
    rewrite Hidx, (nth_error_last sorted (0, 0) Hne) in E1. injection E1 as <-.
    split; [| split; [| reflexivity]].
    + apply in_sortByTime. fold sorted.
      destruct sorted as [| a l]; [congruence |]. apply (@exists_last _ (a :: l)) in Hne.
      destruct Hne as [l' [b ->]]. rewrite last_last. apply in_or_app. right. left. reflexivity.
    + intros q Hq. apply sorted_last_max; [apply sortByTime_sorted |].
      apply in_sortByTime. exact Hq.
Qed.

Lemma interpolate_negative_only_from_last_witness :
  exists dense s,
    interpolateSeries 4 [(1, - (3)); (0, 5)] 2 1 = Returns dense
    /\ In s dense
    /\ DenseSample.value s = JS.Fin (- (3))
    /\ exists p,
         In p [(1, - (3)); (0, 5)]
         /\ (forall q, In q [(1, - (3)); (0, 5)] -> fst q <= fst p)
         /\ DenseSample.value s = JS.Fin (snd p).
Proof.
  pose (last := DenseSample.mk (JS.Fin (20 # 10)) (JS.Fin (- (3)))).
  pose (dense := [DenseSample.mk (JS.Fin (0 # 10)) (JS.Fin 5);
                  DenseSample.mk (JS.Fin (10 # 10)) (JS.Fin 0); last]).
  assert (Hrun : interpolateSeries 4 [(1, - (3)); (0, 5)] 2 1 = Returns dense)
    by (vm_compute; reflexivity).
  assert (Hin : In last dense) by (right; right; left; reflexivity).
  exists dense, last.
  split; [exact Hrun |]. split; [exact Hin |]. split; [reflexivity |].
  destruct (interpolate_negative_only_from_last 4 _ 2 1 _ _ Hrun Hin) as [H | [H | H]].
  - discriminate H.
  - unfold JS.nonneg in H. cbn in H. discriminate H.
  - exact H.
Defined.

(** X1: [interpolateSeries] returns the empty series when it is given
    fewer than two observations or a negative duration, and in no other
    case: a series returned for two or more observations and a duration of
    0 or more starts with a sample at time 0. *)
Theorem interpolate_empty_cases fuel (sparse : list SparsePoint) (duration step : Q) :
  ((length sparse < 2)%nat \/ duration < 0 ->
   interpolateSeries (S fuel) sparse duration step = Returns [])
  /\ (forall dense,
        (2 <= length sparse)%nat -> 0 <= duration ->
        interpolateSeries fuel sparse duration step = Returns dense ->
        exists s rest, dense = s :: rest /\ JS.eqv (DenseSample.time s) (JS.Fin 0)).
Proof.
  unfold interpolateSeries. split.
  - intros [Hlen | Hneg].
    + apply Nat.ltb_lt in Hlen. rewrite Hlen. reflexivity.
    + destruct (length sparse <? 2)%nat; [reflexivity |].
      cbn [interpolateLoop].
      assert (E : Qle_bool 0 duration = false).
      { apply not_true_is_false. rewrite Qle_bool_iff. lra. }
      rewrite E. reflexivity.
  - intros dense Hlen Hdur.
    assert (E : (length sparse <? 2)%nat = false) by (apply Nat.ltb_ge; exact Hlen).
    rewrite E. destruct fuel as [| fuel]; [discriminate |].
    cbn [interpolateLoop].
    assert (E0 : Qle_bool 0 duration = true) by (apply Qle_bool_iff; exact Hdur).
    rewrite E0, seek_returns. cbn [bind]. intros H.
    apply interpolateLoop_prefix in H. destruct H as [tail ->].
    eexists. exists tail. split; [reflexivity |].
    unfold sampleAt.
    destruct (nth_error (sortByTime sparse) (seekIdx (sortByTime sparse) 0 0));
      [destruct (nth_error (sortByTime sparse) (seekIdx (sortByTime sparse) 0 0 + 1)) |];
      reflexivity.
Qed.

Lemma interpolate_empty_cases_witness :
  (length [(4, 2)]%Q < 2)%nat
  /\ interpolateSeries 1 [(4, 2)] 3 1 = Returns []
  /\ (2 <= length [(4, 2); (0, 1)]%Q)%nat
  /\ 0 <= 0
  /\ exists s rest,
       interpolateSeries 2 [(4, 2); (0, 1)] 0 1 = Returns (s :: rest)
       /\ JS.eqv (DenseSample.time s) (JS.Fin 0).
Proof.
  assert (H1 : (length [(4, 2)]%Q < 2)%nat) by (simpl; lia).
  assert (H2 : (2 <= length [(4, 2); (0, 1)]%Q)%nat) by (simpl; lia).
  assert (H0 : 0 <= 0) by discriminate.
  split; [exact H1 |].
  split; [exact (proj1 (interpolate_empty_cases 0 [(4, 2)] 3 1) (or_introl H1)) |].
  split; [exact H2 |]. split; [exact H0 |].
  destruct (proj2 (interpolate_empty_cases 2 [(4, 2); (0, 1)] 0 1)
              (match interpolateSeries 2 [(4, 2); (0, 1)] 0 1 with
               | Returns d => d
               | _ => []
               end) H2 H0)
    as [s [rest [E Ht]]].
  - vm_compute; reflexivity.
  - exists s, rest. split; [rewrite <- E; vm_compute; reflexivity | exact Ht].
Defined.

(** X10: [computeEnergy] keeps the length and the times of the series; the
    energy of a speed that is [NaN] is [NaN], and the energy of any other
    speed is 0 or more, [Infinity] included. *)
Theorem energy_not_negative (speedSeries : list DenseSample.t) :
  length (computeEnergy speedSeries) = length speedSeries
  /\ forall i point,
       nth_error speedSeries i = Some point ->
       exists e,
         nth_error (computeEnergy speedSeries) i = Some e
         /\ DenseSample.time e = DenseSample.time point
         /\ (DenseSample.value point = JS.NaN -> DenseSample.value e = JS.NaN)
         /\ (DenseSample.value point <> JS.NaN -> JS.nonneg (DenseSample.value e)).
Proof.
  unfold computeEnergy. split; [apply length_map |].
  intros i point Hp. eexists. split; [apply map_nth_error; exact Hp |].
  cbn [DenseSample.time DenseSample.value]. split; [reflexivity |].
  split.
  - intros ->. reflexivity.
  - intros Hv. destruct (DenseSample.value point) as [v | | |].
    + unfold JS.nonneg. cbn [JS.mul JS.leb]. apply Qle_bool_iff. nra.
    + reflexivity.
    + reflexivity.
    + congruence.
Qed.

Lemma energy_not_negative_witness :
  exists e,
    nth_error [DenseSample.mk (JS.Fin 0) (JS.Fin (- (3)))] 0
      = Some (DenseSample.mk (JS.Fin 0) (JS.Fin (- (3))))
    /\ JS.Fin (- (3)) <> JS.NaN
    /\ nth_error (computeEnergy [DenseSample.mk (JS.Fin 0) (JS.Fin (- (3)))]) 0 = Some e
    /\ JS.nonneg (DenseSample.value e).
Proof.
  assert (Hv : JS.Fin (- (3)) <> JS.NaN) by discriminate.
  destruct (proj2 (energy_not_negative [DenseSample.mk (JS.Fin 0) (JS.Fin (- (3)))])
              0%nat _ eq_refl) as [e [He [_ [_ Hpos]]]].
  exists e. split; [reflexivity |]. split; [exact Hv |].
  split; [exact He | exact (Hpos Hv)].
Defined.

(** The closing speed is [NaN], [Infinity], or a number that is 0 or more. *)
Lemma closingSpeedOf_cases (v1 v2 : JS.number) :
  closingSpeedOf v1 v2 = JS.NaN
  \/ closingSpeedOf v1 v2 = JS.PosInf
  \/ exists c, closingSpeedOf v1 v2 = JS.Fin c /\ 0 <= c.
Proof.
  unfold closingSpeedOf.
  destruct v1 as [a | | |], v2 as [b | | |]; cbn [JS.sub JS.neg JS.add JS.abs]; auto.
  right. right. eexists. split; [reflexivity | apply Qabs_nonneg].
Qed.

Lemma closeDistance_nan (cs : JS.number) : closeDistance JS.NaN cs = JS.NaN.
Proof. reflexivity. Qed.

(** One round on a distance within [[0, 50]]: the new distance is [NaN] or
    lies between 0 and the old one, and the time-to-collision is [NaN]
    with the distance, or lies within [[0, 50]]. *)
Lemma closing_round (d : Q) (v1 v2 : JS.number) :
  0 <= d -> d <= 50 ->
  let cs := closingSpeedOf v1 v2 in
  let d' := closeDistance (JS.Fin d) cs in
  (d' = JS.NaN /\ (ttcOf d' cs = JS.NaN \/ ttcOf d' cs = JS.Fin 10))
  \/ exists q, d' = JS.Fin q /\ 0 <= q /\ q <= d /\ within 0 50 (ttcOf d' cs).
Proof.
  intros H0 H50. cbv zeta.
  destruct (closingSpeedOf_cases v1 v2) as [-> | [-> | [c [-> Hc]]]].
  - left. split; [reflexivity | right; reflexivity].
  - right. exists 0. split; [reflexivity |]. split; [lra |]. split; [exact H0 |].
    split; reflexivity.
  - right. unfold closeDistance, ttcOf. cbn [JS.sub JS.neg JS.add JS.mul JS.ltb JS.gtb].
    destruct (Qltb (d + - (c * (1 # 10))) 0) eqn:E.
    + exists 0. split; [reflexivity |]. split; [lra |]. split; [exact H0 |].
      destruct (Qltb 1 c) eqn:Ec; [| split; reflexivity].
      apply Qltb_lt in Ec.
      assert (F : Qeqb c 0 = false) by (apply Qeqb_neq; intros F; lra).
      cbn [JS.div]. rewrite F. unfold within. cbn [JS.leb].
      split; apply Qle_bool_iff.
      * apply Qle_shift_div_l; lra.
      * apply Qle_shift_div_r; lra.
    + apply Qltb_ge in E. eexists. split; [reflexivity |].
      split; [exact E |]. split; [lra |].
      destruct (Qltb 1 c) eqn:Ec; [| split; reflexivity].
      apply Qltb_lt in Ec.
      assert (F : Qeqb c 0 = false) by (apply Qeqb_neq; intros F; lra).
      cbn [JS.div]. rewrite F. unfold within. cbn [JS.leb].
      split; apply Qle_bool_iff.
      * apply Qle_shift_div_l; lra.
      * apply Qle_shift_div_r; [lra | nra].
Qed.

(** Once the distance is [NaN] it stays [NaN], and the time-to-collision
    is [NaN] or the sentinel 10. *)
Lemma closingLoop_after_nan dense1 :
  forall dense2,
    Forall (fun r => ClosingSample.distance r = JS.NaN
                     /\ (ClosingSample.ttc r = JS.NaN \/ ClosingSample.ttc r = JS.Fin 10))
      (closingLoop dense1 dense2 JS.NaN)
    /\ neverGrows JS.NaN (closingLoop dense1 dense2 JS.NaN).
Proof.
  induction dense1 as [| s1 dense1 IH]; intros [| s2 dense2];
    cbn [closingLoop neverGrows]; try (split; [constructor | exact I]).
  rewrite closeDistance_nan. destruct (IH dense2) as [Hall Hgrow].
  cbn [ClosingSample.distance]. split.
  - constructor; [| exact Hall].
    cbn [ClosingSample.distance ClosingSample.ttc]. split; [reflexivity |].
    unfold ttcOf.
    destruct (closingSpeedOf (DenseSample.value s1) (DenseSample.value s2) >? JS.Fin 1)%js;
      [left | right]; reflexivity.
  - split; [left; reflexivity | exact Hgrow].
Qed.

Lemma closingLoop_range dense1 :
  forall dense2 d,
    0 <= d -> d <= 50 ->
    Forall (fun r =>
              (ClosingSample.distance r = JS.NaN \/ within 0 50 (ClosingSample.distance r))
              /\ ((ClosingSample.ttc r = JS.NaN /\ ClosingSample.distance r = JS.NaN)
                  \/ within 0 50 (ClosingSample.ttc r)))
      (closingLoop dense1 dense2 (JS.Fin d))
    /\ neverGrows (JS.Fin d) (closingLoop dense1 dense2 (JS.Fin d)).
Proof.
  induction dense1 as [| s1 dense1 IH]; intros [| s2 dense2] d H0 H50;
    cbn [closingLoop neverGrows]; try (split; [constructor | exact I]).
  cbn [ClosingSample.distance].
  destruct (closing_round d (DenseSample.value s1) (DenseSample.value s2) H0 H50)
    as [[Hd Httc] | [q [Hd [Hq0 [Hqd Httc]]]]].
  - rewrite Hd in *. destruct (closingLoop_after_nan dense1 dense2) as [Hall Hgrow].
    split; [| split; [left; reflexivity | exact Hgrow]].
    constructor.
    + cbn [ClosingSample.distance ClosingSample.ttc]. split; [left; reflexivity |].
      destruct Httc as [E | E]; rewrite E; [left; split; reflexivity |].
      right. split; reflexivity.
    + eapply Forall_impl; [| exact Hall].
      intros r [Er [Et | Et]]; (split; [left; exact Er |]).
      * left. split; assumption.
      * right. rewrite Et. split; reflexivity.
  - rewrite Hd in *.
    assert (Hq50 : q <= 50) by lra.
    destruct (IH dense2 q Hq0 Hq50) as [Hall Hgrow].
    split; [| split; [right; apply Qle_bool_iff; exact Hqd | exact Hgrow]].
    constructor; [| exact Hall].
    cbn [ClosingSample.distance ClosingSample.ttc].
    split; [right; split; apply Qle_bool_iff; assumption | right; exact Httc].
Qed.

(** X11: on every input the distance of a row of the closing series is
    [NaN] or lies within [[0, 50]], and no distance is above the one
    before it; once a distance is [NaN], so is every later one. *)
Theorem closing_distance_in_range fuel obj1 obj2 duration results :
  computeDistanceAndTTC fuel obj1 obj2 duration = Returns results ->
  Forall (fun r => ClosingSample.distance r = JS.NaN
                   \/ within 0 50 (ClosingSample.distance r)) results
  /\ neverGrows startDistance results.
Proof.
  intros H.
  destruct (computeDistanceAndTTC_unfold _ _ _ _ _ H) as [dense1 [dense2 [_ [_ ->]]]].
  destruct (closingLoop_range dense1 dense2 50) as [Hall Hgrow]; try discriminate.
  split; [| exact Hgrow].
  eapply Forall_impl; [| exact Hall]. intros r [Hd _]. exact Hd.
Qed.

Lemma closing_distance_in_range_witness :
  exists results,
    computeDistanceAndTTC 4
      (profiledObject [(0, 0); (1, 40)]) (profiledObject [(0, 0); (1, 0)]) (2 # 10)
      = Returns results
    /\ length results = 3%nat
    /\ Forall (fun r => ClosingSample.distance r = JS.NaN
                        \/ within 0 50 (ClosingSample.distance r)) results
    /\ neverGrows startDistance results.
Proof.
  eexists. split; [vm_compute; reflexivity |]. split; [reflexivity |].
  apply (closing_distance_in_range 4 (profiledObject [(0, 0); (1, 40)])
           (profiledObject [(0, 0); (1, 0)]) (2 # 10)).
  vm_compute; reflexivity.
Defined.

(** X12: on every input the time-to-collision of a row is a number within
    [[0, 50]], or it is [NaN] together with the distance of the row. *)
Theorem closing_ttc_in_range fuel obj1 obj2 duration results :
  computeDistanceAndTTC fuel obj1 obj2 duration = Returns results ->
  Forall (fun r => (ClosingSample.ttc r = JS.NaN /\ ClosingSample.distance r = JS.NaN)
                   \/ within 0 50 (ClosingSample.ttc r)) results.
Proof.
  intros H.
  destruct (computeDistanceAndTTC_unfold _ _ _ _ _ H) as [dense1 [dense2 [_ [_ ->]]]].
  destruct (closingLoop_range dense1 dense2 50) as [Hall _]; try discriminate.
  eapply Forall_impl; [| exact Hall]. intros r [_ Ht]. exact Ht.
Qed.

Lemma closing_ttc_in_range_witness :
  exists results,
    computeDistanceAndTTC 4
      (profiledObject [(0, 0); (1, 40)]) (profiledObject [(0, 0); (1, 0)]) (2 # 10)
      = Returns results
    /\ length results = 3%nat
    /\ Forall (fun r => (ClosingSample.ttc r = JS.NaN /\ ClosingSample.distance r = JS.NaN)
                        \/ within 0 50 (ClosingSample.ttc r)) results.
Proof.
  eexists. split; [vm_compute; reflexivity |]. split; [reflexivity |].
  apply (closing_ttc_in_range 4 (profiledObject [(0, 0); (1, 40)])
           (profiledObject [(0, 0); (1, 0)]) (2 # 10)).
  vm_compute; reflexivity.
Defined.

(** The closing speed of a speed against itself is 0, or [NaN] when the
    speed is not finite. *)
Lemma closingSpeedOf_self (v : JS.number) :
  closingSpeedOf v v = JS.NaN \/ exists c, closingSpeedOf v v = JS.Fin c /\ c == 0.
Proof.
  unfold closingSpeedOf.
  destruct v as [a | | |]; cbn [JS.sub JS.neg JS.add JS.abs]; auto.
  right. eexists. split; [reflexivity |].
  setoid_replace (a + - a) with 0 by ring. reflexivity.
Qed.

Lemma closingLoop_same dense :
  forall d0,
    d0 = JS.NaN \/ JS.eqv d0 (JS.Fin 50) ->
    Forall (fun r =>
              (ClosingSample.distance r = JS.NaN
               \/ JS.eqv (ClosingSample.distance r) (JS.Fin 50))
              /\ ClosingSample.ttc r = JS.Fin 10
              /\ ClosingSample.risk r = false)
      (closingLoop dense dense d0).
Proof.
  induction dense as [| s dense IH]; intros d0 Hd0; cbn [closingLoop]; [constructor |].
  assert (Httc : forall d, ttcOf d (closingSpeedOf (DenseSample.value s) (DenseSample.value s))
                           = JS.Fin 10).
  { intros d. unfold ttcOf.
    destruct (closingSpeedOf_self (DenseSample.value s)) as [-> | [c [-> Hc]]];
      [reflexivity |].
    cbn [JS.gtb JS.ltb].
    assert (E : Qltb 1 c = false) by (apply Qltb_ge; lra).
    rewrite E. reflexivity. }
  assert (Hd : closeDistance d0 (closingSpeedOf (DenseSample.value s) (DenseSample.value s))
               = JS.NaN
               \/ JS.eqv (closeDistance d0
                            (closingSpeedOf (DenseSample.value s) (DenseSample.value s)))
                    (JS.Fin 50)).
  { destruct Hd0 as [-> | Hd0]; [left; reflexivity |].
    destruct d0 as [q | | |]; cbn [JS.eqv] in Hd0; try contradiction.
    destruct (closingSpeedOf_self (DenseSample.value s)) as [-> | [c [-> Hc]]];
      [left; reflexivity |].
    right. unfold closeDistance. cbn [JS.sub JS.neg JS.add JS.mul JS.ltb].
    assert (E : Qltb (q + - (c * (1 # 10))) 0 = false) by (apply Qltb_ge; lra).
    rewrite E. cbn [JS.eqv]. lra. }
  rewrite Httc. constructor; [| apply IH; exact Hd].
  cbn [ClosingSample.distance ClosingSample.ttc ClosingSample.risk].
  split; [exact Hd |]. split; reflexivity.
Qed.

(** X15: two objects with the same speed profile never close in: every
    row has the time-to-collision 10 and no risk, and its distance is 50
    or [NaN]. *)
Theorem closing_of_equal_profiles fuel obj1 obj2 duration results :
  profileOf obj1 = profileOf obj2 ->
  computeDistanceAndTTC fuel obj1 obj2 duration = Returns results ->
  Forall (fun r =>
            (ClosingSample.distance r = JS.NaN
             \/ JS.eqv (ClosingSample.distance r) (JS.Fin 50))
            /\ ClosingSample.ttc r = JS.Fin 10
            /\ ClosingSample.risk r = false) results.
Proof.
  intros Hsame H.
  destruct (computeDistanceAndTTC_unfold _ _ _ _ _ H) as [dense1 [dense2 [E1 [E2 ->]]]].
  rewrite <- Hsame, E1 in E2. injection E2 as <-.
  apply closingLoop_same. right. reflexivity.
Qed.

Lemma closing_of_equal_profiles_witness :
  profileOf (profiledObject [(0, 3); (1, 8)]) = profileOf (profiledObject [(0, 3); (1, 8)])
  /\ exists results,
       computeDistanceAndTTC 3
         (profiledObject [(0, 3); (1, 8)]) (profiledObject [(0, 3); (1, 8)]) (1 # 10)
         = Returns results
       /\ length results = 2%nat
       /\ Forall (fun r =>
                    (ClosingSample.distance r = JS.NaN
                     \/ JS.eqv (ClosingSample.distance r) (JS.Fin 50))
                    /\ ClosingSample.ttc r = JS.Fin 10
                    /\ ClosingSample.risk r = false) results.
Proof.
  split; [reflexivity |].
  eexists. split; [vm_compute; reflexivity |]. split; [reflexivity |].
  apply (closing_of_equal_profiles 3 (profiledObject [(0, 3); (1, 8)])
           (profiledObject [(0, 3); (1, 8)]) (1 # 10) _ eq_refl).
  vm_compute; reflexivity.
Defined.
